(** * SignASL scraper and video cache: a shallow embedding

    The development follows [src/scraper/signasl_scraper.py],
    [src/scraper/video_downloader.py] and [src/api/main.py].

    - Python [str] values are modelled by [string]: a sequence of code points
      below 256 (the Latin-1 range), on which [str.lower], [str.strip] and
      [str.encode] are written out below.
    - The cache directory is a finite map from file names to files.  A key
      without a path separator is an entry of the directory.  A key that
      holds one names a file below or outside of the directory: [glob] on
      the directory does not list it, and the statements on the operations
      that work by pattern are made for names without separator.
    - pathlib is the one of Python 3.11, POSIX flavour.
    - Exceptions are values of [exn]; a call either returns or raises, and the
      effects it had on the world before raising stay.  The message Python
      gives an exception is not modelled: a text that formats an exception
      keeps the exception. *)

From Stdlib Require Import ZArith Ascii String List Lia Bool.
From stdpp Require Import base option list strings gmap fin_maps pretty.

Local Open Scope Z_scope.
Set Warnings "-register-all".
Set Default Proof Using "Type".

(** ** Python strings *)

Module Py.

Definition ord (c : ascii) : Z := Z.of_N (N_of_ascii c).
Definition chr (z : Z) : ascii := ascii_of_N (Z.to_N z).

Fixpoint str_map (f : ascii -> ascii) (s : string) : string :=
  match s with
  | EmptyString => EmptyString
  | String c r => String (f c) (str_map f r)
  end.

(** [str.lower] on the code points below 256: the letters A..Z and the
    Latin-1 capitals U+00C0..U+00DE (U+00D7, the multiplication sign, is not
    a letter) move up by 32. *)
Definition lower_char (c : ascii) : ascii :=
  let n := ord c in
  if ((65 <=? n) && (n <=? 90)) || ((192 <=? n) && (n <=? 222) && negb (n =? 215))
  then chr (n + 32) else c.

Definition lower (s : string) : string := str_map lower_char s.

(** [s.replace(old, new)] for one-character [old] and [new]. *)
Definition replace (old new : ascii) (s : string) : string :=
  str_map (fun c => if Ascii.eqb c old then new else c) s.

(** The white space [str.strip] removes, below 256. *)
Definition isspace (c : ascii) : bool :=
  let n := ord c in
  ((9 <=? n) && (n <=? 13)) || ((28 <=? n) && (n <=? 32)) || (n =? 133) || (n =? 160).

Fixpoint lstrip (s : string) : string :=
  match s with
  | EmptyString => EmptyString
  | String c r => if isspace c then lstrip r else s
  end.

Fixpoint rstrip (s : string) : string :=
  match s with
  | EmptyString => EmptyString
  | String c r =>
      match rstrip r with
      | EmptyString => if isspace c then EmptyString else String c EmptyString
      | r' => String c r'
      end
  end.

Definition strip (s : string) : string := rstrip (lstrip s).

Fixpoint endswith (s suffix : string) : bool :=
  String.eqb s suffix ||
  match s with
  | EmptyString => false
  | String _ r => endswith r suffix
  end.

(** [s[:n]] *)
Fixpoint take (n : nat) (s : string) : string :=
  match n, s with
  | S n', String c r => String c (take n' r)
  | _, _ => EmptyString
  end.

(** [s.encode()]: UTF-8; a code point from 128 to 255 takes two bytes. *)
Definition encode_char (c : ascii) : list Z :=
  let n := ord c in
  if n <? 128 then [n]
  else [Z.lor 192 (Z.shiftr n 6); Z.lor 128 (Z.land n 63)].

Fixpoint encode (s : string) : list Z :=
  match s with
  | EmptyString => []
  | String c r => encode_char c ++ encode r
  end.

(** Truth value of a string in a condition. *)
Definition truthy (s : string) : bool :=
  match s with EmptyString => false | _ => true end.

(** [s.split(sep)] for a one-character [sep]. *)
Fixpoint split (sep : ascii) (s : string) : list string :=
  match s with
  | EmptyString => [EmptyString]
  | String c r =>
      if Ascii.eqb c sep then EmptyString :: split sep r
      else
        match split sep r with
        | part :: parts => String c part :: parts
        | [] => [String c EmptyString]
        end
  end.

(** [sep.join(parts)] *)
Fixpoint join (sep : string) (parts : list string) : string :=
  match parts with
  | [] => EmptyString
  | part :: rest =>
      match rest with
      | [] => part
      | _ => part +:+ sep +:+ join sep rest
      end
  end.

End Py.

(** ** pathlib, POSIX flavour *)

Module pathlib.

(** A path: its root (empty, one slash or two) and the names after it. *)
Record PurePath := { root : string; names : list string }.

Fixpoint lstrip_sep (s : string) : string :=
  match s with
  | String c r => if Ascii.eqb c "/" then lstrip_sep r else s
  | EmptyString => s
  end.

(** [splitroot]: two leading slashes, and no more, make a root of their
    own. *)
Definition splitroot (part : string) : string * string :=
  let rel := lstrip_sep part in
  match (String.length part - String.length rel)%nat with
  | O => (EmptyString, part)
  | 2%nat => ("//", rel)
  | _ => ("/", rel)
  end.

(** [Path(s)], as [parse_parts] reads one string: the components that are
    neither empty nor a single dot. *)
Definition Path (s : string) : PurePath :=
  let '(root, rel) := splitroot s in
  {| root := root;
     names := List.filter (fun x => negb (String.eqb x "" || String.eqb x "."))
                (Py.split "/" rel) |}.

(** [self / other]: a rooted [other] stands alone. *)
Definition joinpath (p q : PurePath) : PurePath :=
  if Py.truthy (root q) then q
  else {| root := root p; names := names p ++ names q |}.

(** [str(path)] *)
Definition str (p : PurePath) : string :=
  match root p, names p with
  | EmptyString, [] => "."
  | r, ns => r +:+ Py.join "/" ns
  end.

End pathlib.

(** ** hashlib.md5 (RFC 1321) on 32-bit words held in [Z] *)

Module MD5.

Definition w32 (x : Z) : Z := x mod 2^32.
Definition add32 (x y : Z) : Z := w32 (x + y).
Definition not32 (x : Z) : Z := 2^32 - 1 - x.
Definition rotl32 (x : Z) (s : Z) : Z :=
  Z.lor (w32 (Z.shiftl x s)) (Z.shiftr x (32 - s)).

Definition K : list Z :=
  [ 0xd76aa478; 0xe8c7b756; 0x242070db; 0xc1bdceee;
    0xf57c0faf; 0x4787c62a; 0xa8304613; 0xfd469501;
    0x698098d8; 0x8b44f7af; 0xffff5bb1; 0x895cd7be;
    0x6b901122; 0xfd987193; 0xa679438e; 0x49b40821;
    0xf61e2562; 0xc040b340; 0x265e5a51; 0xe9b6c7aa;
    0xd62f105d; 0x02441453; 0xd8a1e681; 0xe7d3fbc8;
    0x21e1cde6; 0xc33707d6; 0xf4d50d87; 0x455a14ed;
    0xa9e3e905; 0xfcefa3f8; 0x676f02d9; 0x8d2a4c8a;
    0xfffa3942; 0x8771f681; 0x6d9d6122; 0xfde5380c;
    0xa4beea44; 0x4bdecfa9; 0xf6bb4b60; 0xbebfbc70;
    0x289b7ec6; 0xeaa127fa; 0xd4ef3085; 0x04881d05;
    0xd9d4d039; 0xe6db99e5; 0x1fa27cf8; 0xc4ac5665;
    0xf4292244; 0x432aff97; 0xab9423a7; 0xfc93a039;
    0x655b59c3; 0x8f0ccc92; 0xffeff47d; 0x85845dd1;
    0x6fa87e4f; 0xfe2ce6e0; 0xa3014314; 0x4e0811a1;
    0xf7537e82; 0xbd3af235; 0x2ad7d2bb; 0xeb86d391 ].

Definition shifts : list Z :=
  [ 7; 12; 17; 22; 7; 12; 17; 22; 7; 12; 17; 22; 7; 12; 17; 22;
    5;  9; 14; 20; 5;  9; 14; 20; 5;  9; 14; 20; 5;  9; 14; 20;
    4; 11; 16; 23; 4; 11; 16; 23; 4; 11; 16; 23; 4; 11; 16; 23;
    6; 10; 15; 21; 6; 10; 15; 21; 6; 10; 15; 21; 6; 10; 15; 21 ].

Record state := State { sa : Z; sb : Z; sc : Z; sd : Z }.

Definition init : state :=
  State 0x67452301 0xefcdab89 0x98badcfe 0x10325476.

(** One of the 64 operations of a block; [m] holds its sixteen words. *)
Definition step (m : list Z) (st : state) (i : nat) : state :=
  let '(State a b c d) := st in
  let iz := Z.of_nat i in
  let '(f, g) :=
    if iz <? 16 then (Z.lor (Z.land b c) (Z.land (not32 b) d), iz)
    else if iz <? 32 then (Z.lor (Z.land d b) (Z.land (not32 d) c), (5 * iz + 1) mod 16)
    else if iz <? 48 then (Z.lxor (Z.lxor b c) d, (3 * iz + 5) mod 16)
    else (Z.lxor c (Z.lor b (not32 d)), (7 * iz) mod 16) in
  let f' := add32 (add32 (add32 f a) (nth i K 0)) (nth (Z.to_nat g) m 0) in
  State d (add32 b (rotl32 f' (nth i shifts 0))) b c.

(** Little-endian 32-bit words of a byte sequence, and back. *)
Fixpoint words (bs : list Z) : list Z :=
  match bs with
  | b0 :: b1 :: b2 :: b3 :: r =>
      (b0 + Z.shiftl b1 8 + Z.shiftl b2 16 + Z.shiftl b3 24) :: words r
  | _ => []
  end.

Definition word_bytes (x : Z) : list Z :=
  [ Z.land x 255; Z.land (Z.shiftr x 8) 255;
    Z.land (Z.shiftr x 16) 255; Z.land (Z.shiftr x 24) 255 ].

Definition block (st : state) (m : list Z) : state :=
  let '(State a b c d) := fold_left (step m) (seq 0 64) st in
  State (add32 (sa st) a) (add32 (sb st) b) (add32 (sc st) c) (add32 (sd st) d).

(** The message followed by 0x80, zeros up to 56 modulo 64, and its length
    in bits on eight bytes. *)
Definition pad (msg : list Z) : list Z :=
  let n := Z.of_nat (length msg) in
  let zeros := Z.to_nat ((55 - n) mod 64) in
  let bits := (8 * n) mod 2^64 in
  msg ++ [128] ++ repeat 0 zeros
      ++ word_bytes (bits mod 2^32) ++ word_bytes (Z.shiftr bits 32).

Fixpoint blocks (ws : list Z) (n : nat) : list (list Z) :=
  match n with
  | O => []
  | S n' => firstn 16 ws :: blocks (skipn 16 ws) n'
  end.

Definition digest (msg : list Z) : list Z :=
  let ws := words (pad msg) in
  let st := fold_left block (blocks ws (length ws / 16)%nat) init in
  word_bytes (sa st) ++ word_bytes (sb st) ++ word_bytes (sc st) ++ word_bytes (sd st).

Definition hex_digit (n : Z) : ascii :=
  let d := n mod 16 in
  if d <? 10 then Py.chr (48 + d) else Py.chr (87 + d).

Definition hex_byte (b : Z) : string :=
  String (hex_digit (Z.shiftr b 4)) (String (hex_digit b) EmptyString).

Fixpoint hex (bs : list Z) : string :=
  match bs with
  | [] => EmptyString
  | b :: r => hex_byte b +:+ hex r
  end.

Definition hexdigest (msg : list Z) : string := hex (digest msg).

End MD5.

(** ** Exceptions and the world *)

(** The exception classes the modules can meet.  [HTTPError] and
    [RequestError] are [requests.exceptions.RequestException]s (the second
    stands for the connection, timeout and broken-stream errors); [OSError],
    [ParserError], [ValueError] and [NotImplementedError] are not. *)
Inductive exn :=
| HTTPError (status : Z)
| RequestError
| OSError
| ParserError
| ValueError
| NotImplementedError.

Definition is_RequestException (e : exn) : bool :=
  match e with
  | HTTPError _ | RequestError => true
  | OSError | ParserError | ValueError | NotImplementedError => false
  end.

Definition is_HTTPError (e : exn) : bool :=
  match e with HTTPError _ => true | _ => false end.

(** A text the code builds: a string, or a string followed by the message
    of an exception ([{e}] in an f-string, [str(e)]).  The message is not
    spelled out; the exception it belongs to is kept. *)
Inductive text :=
| Str (s : string)
| StrExn (s : string) (e : exn).

Inductive outcome (A : Type) :=
| Ret (a : A)
| Raise (e : exn).
Arguments Ret {A} a.
Arguments Raise {A} e.

(** [ERROR msg e]: every error record ends with the message of the
    exception at hand. *)
Inductive log_record :=
| INFO (msg : string)
| WARNING (msg : string)
| ERROR (msg : string) (e : exn).

(** A file of the cache directory.  [removable = false] stands for an entry
    on which [unlink] raises (a directory, a missing permission). *)
Record file := File { content : list Z; removable : bool }.

(** The cache directory, the URLs requested so far (oldest first) and the
    records the logger received (oldest first). *)
Record world := World {
  files : gmap string file;
  requests : list string;
  log : list log_record
}.

(** What the remote end does with a [requests.get(url, stream=True)]:
    no usable answer, or a status and a body that arrives in chunks and may
    break before its end. *)
Inductive stream_end := Complete | Broken.

Inductive http_reply :=
| NoReply
| Reply (status : Z) (chunks : list (list Z)) (fin : stream_end).

(** What the file system does during one call of [download_video] or
    [is_cached].  [NameRefused]: it does not take the path of the file (a
    name longer than NAME_MAX, 255 bytes on the usual file systems, a path
    longer than PATH_MAX), so that [stat] and [open] fail.  [OpenFails]:
    [open] raises (a directory that is missing or may not be written; for a
    name with a NUL character Python raises a [ValueError], which no handler
    of these modules tells from an [OSError]).  [WriteFails k]: the write
    numbered [k] (from 0) raises. *)
Inductive disk_fault :=
| NoFault
| NameRefused
| OpenFails
| WriteFails (k : nat).

(** A parsed page, as BeautifulSoup hands it out. *)
Inductive node :=
| Tag (name : string) (attrs : list (string * string)) (children : list node)
| Text (s : string).

Definition document := list node.

(** What the site answers to [session.get(url, timeout=10)]: nothing usable,
    or a status and a body; [body = None] is a body on which the parser
    raises. *)
Inductive page_reply :=
| PageNoReply
| PageReply (status : Z) (body : option document).

(** The environment of the two modules; [n] is the number of requests sent
    before. *)
Record env := Env {
  remote : nat -> string -> http_reply;
  disk : nat -> disk_fault;
  site : nat -> string -> page_reply
}.

(** ** A state and exception monad *)

Definition M (A : Type) : Type := world -> outcome A * world.

Definition ret {A} (a : A) : M A := fun w => (Ret a, w).
Definition raise {A} (e : exn) : M A := fun w => (Raise e, w).
Definition bind {A B} (m : M A) (k : A -> M B) : M B :=
  fun w =>
    match m w with
    | (Ret a, w') => k a w'
    | (Raise e, w') => (Raise e, w')
    end.

(** [try: body / except C as e: handler e], [C] given by [catches]. *)
Definition try_except {A} (body : M A) (catches : exn -> bool) (handler : exn -> M A) : M A :=
  fun w =>
    match body w with
    | (Ret a, w') => (Ret a, w')
    | (Raise e, w') => if catches e then handler e w' else (Raise e, w')
    end.

Notation "'do' x <- m ; k" := (bind m (fun x => k))
  (at level 10, x name, m at level 100, k at level 200).
Notation "m >> k" := (bind m (fun _ => k))
  (at level 199, right associativity).

Definition logger (r : log_record) : M unit :=
  fun w => (Ret tt, World (files w) (requests w) (log w ++ [r])).

Definition set_files (fs : gmap string file) : M unit :=
  fun w => (Ret tt, World fs (requests w) (log w)).

(** [Path.exists]: [True] for a file that is there.  For one that is not,
    [stat] fails; [exists] turns a missing file into [False] and lets the
    other errors through, the one for a path the file system does not take
    among them. *)
Definition path_exists (fault : disk_fault) (name : string) : M bool :=
  fun w =>
    match files w !! name with
    | Some _ => (Ret true, w)
    | None =>
        match fault with
        | NameRefused => (Raise OSError, w)
        | _ => (Ret false, w)
        end
    end.

(** [Path.unlink] *)
Definition unlink (name : string) : M unit :=
  fun w =>
    match files w !! name with
    | Some f => if removable f then set_files (delete name (files w)) w
                else (Raise OSError, w)
    | None => (Raise OSError, w)
    end.

(** [open(path, 'wb')]: the file is created, or emptied when it is there. *)
Definition open_wb (fault : disk_fault) (name : string) : M unit :=
  fun w =>
    match fault with
    | OpenFails | NameRefused => (Raise OSError, w)
    | _ =>
        let r := match files w !! name with Some f => removable f | None => true end in
        set_files (<[name := File [] r]> (files w)) w
    end.

(** [f.write(chunk)] *)
Definition write (name : string) (chunk : list Z) : M unit :=
  fun w =>
    match files w !! name with
    | Some f => set_files (<[name := File (content f ++ chunk) (removable f)]> (files w)) w
    | None => (Raise OSError, w)
    end.

(** [Path.stat().st_size] *)
Definition stat_size (name : string) : M Z :=
  fun w =>
    match files w !! name with
    | Some f => (Ret (Z.of_nat (length (content f))), w)
    | None => (Raise OSError, w)
    end.

(** [requests.get(url, stream=True, timeout=30)] *)
Definition requests_get (E : env) (url : string) : M (Z * list (list Z) * stream_end * disk_fault) :=
  fun w =>
    let n := length (requests w) in
    let w' := World (files w) (requests w ++ [url]) (log w) in
    match remote E n url with
    | NoReply => (Raise RequestError, w')
    | Reply status chunks fin => (Ret (status, chunks, fin, disk E n), w')
    end.

(** [response.raise_for_status()] *)
Definition raise_for_status (status : Z) : M unit :=
  if (400 <=? status) && (status <? 600) then raise (HTTPError status) else ret tt.

(** ** Glob patterns (fnmatch)

    A star matches any run of characters, a question mark one character, a
    bracket opens a character class when a closing bracket follows, and any
    other character matches itself; matching is case sensitive. *)

Inductive token :=
| TLit (c : ascii)
| TAny
| TStar
| TClass (negated : bool) (items : list (ascii * ascii)).

(** Up to the first closing bracket. *)
Fixpoint until_bracket (s : string) : option (string * string) :=
  match s with
  | EmptyString => None
  | String c r =>
      if Ascii.eqb c "]" then Some (EmptyString, r)
      else match until_bracket r with
           | Some (a, b) => Some (String c a, b)
           | None => None
           end
  end.

(** The text of a character class, for the pattern left after an opening
    bracket: a leading exclamation mark and a closing bracket that comes
    first belong to the class. *)
Definition class_text (s : string) : option (string * string) :=
  let '(p1, s1) := match s with
                   | String "!" r => ("!", r)
                   | _ => (EmptyString, s)
                   end in
  let '(p2, s2) := match s1 with
                   | String "]" r => ("]", r)
                   | _ => (EmptyString, s1)
                   end in
  match until_bracket s2 with
  | Some (a, rest) => Some (p1 +:+ p2 +:+ a, rest)
  | None => None
  end.

Fixpoint class_items (s : string) : list (ascii * ascii) :=
  match s with
  | EmptyString => []
  | String a (String "-" (String b r)) => (a, b) :: class_items r
  | String a r => (a, a) :: class_items r
  end.

Definition class_token (text : string) : token :=
  match text with
  | String "!" r => TClass true (class_items r)
  | _ => TClass false (class_items text)
  end.

(** [skip] counts the characters of a class still to pass over. *)
Fixpoint tokens (skip : nat) (pat : string) : list token :=
  match pat with
  | EmptyString => []
  | String c r =>
      match skip with
      | S k => tokens k r
      | O =>
          if Ascii.eqb c "*" then TStar :: tokens 0 r
          else if Ascii.eqb c "?" then TAny :: tokens 0 r
          else if Ascii.eqb c "[" then
            match class_text r with
            | Some (text, _) => class_token text :: tokens (S (String.length text)) r
            | None => TLit c :: tokens 0 r
            end
          else TLit c :: tokens 0 r
      end
  end.

Definition in_class (c : ascii) (items : list (ascii * ascii)) : bool :=
  existsb (fun '(lo, hi) => (Py.ord lo <=? Py.ord c) && (Py.ord c <=? Py.ord hi)) items.

Fixpoint match_tokens (ts : list token) (name : string) {struct ts} : bool :=
  match ts with
  | [] => negb (Py.truthy name)
  | TStar :: ts' =>
      (fix star (n : string) : bool :=
         match_tokens ts' n ||
         match n with
         | EmptyString => false
         | String _ n' => star n'
         end) name
  | TAny :: ts' =>
      match name with
      | String _ n' => match_tokens ts' n'
      | EmptyString => false
      end
  | TLit c :: ts' =>
      match name with
      | String d n' => Ascii.eqb c d && match_tokens ts' n'
      | EmptyString => false
      end
  | TClass neg items :: ts' =>
      match name with
      | String d n' => xorb neg (in_class d items) && match_tokens ts' n'
      | EmptyString => false
      end
  end.

Definition fnmatch (name pat : string) : bool := match_tokens (tokens 0 pat) name.

Fixpoint all_chars (p : ascii -> bool) (s : string) : bool :=
  match s with
  | EmptyString => true
  | String c r => p c && all_chars p r
  end.

(** No path separator. *)
Definition no_sep (s : string) : bool :=
  all_chars (fun c => negb (Ascii.eqb c "/")) s.

(** [os.scandir] on the cache directory: its entries, the files whose name
    is one path component.  The order is the one of the map; the directory
    has an order of its own, and no statement depends on it. *)
Definition scandir (w : world) : list string :=
  filter (fun name => no_sep name = true) (map fst (map_to_list (files w))).

(** What [Path.glob] yields for a pattern of one component that it does not
    refuse: the entries of the directory whose name matches.  The star does
    not leave the directory. *)
Definition glob (pat : string) (w : world) : list string :=
  filter (fun name => fnmatch name pat = true) (scandir w).

Fixpoint has_doubled_star (s : string) : bool :=
  match s with
  | EmptyString => false
  | String c r =>
      match r with
      | String d _ => (Ascii.eqb c "*" && Ascii.eqb d "*") || has_doubled_star r
      | EmptyString => false
      end
  end.

(** The patterns [Path.glob] refuses before it reads the directory: the
    empty one, a rooted one, and one with a doubled star that is not a
    component of its own (the patterns of this module end with [.mp4], so
    they have a last component). *)
Definition glob_error (pat : string) : option exn :=
  if negb (Py.truthy pat) then Some ValueError
  else if Py.truthy (pathlib.root (pathlib.Path pat)) then Some NotImplementedError
  else if existsb (fun part => negb (String.eqb part "**") && has_doubled_star part)
            (pathlib.names (pathlib.Path pat))
  then Some ValueError
  else None.

(** [list(Path.glob(pattern))] on the cache directory. *)
Definition Path_glob (pat : string) : M (list string) :=
  fun w =>
    match glob_error pat with
    | Some e => (Raise e, w)
    | None => (Ret (glob pat w), w)
    end.

(** ** signasl_scraper.py *)

Definition BASE_URL (word : string) : string :=
  "https://www.signasl.org/sign/" +:+ word.

Definition _normalize_word (word : string) : string :=
  Py.replace " " "-" (Py.strip (Py.lower word)).

(** [soup.find_all(name)]: the tags of that name, in document order. *)
Fixpoint find_all_node (name : string) (n : node) : list node :=
  match n with
  | Text _ => []
  | Tag t _ children =>
      (if String.eqb t name then [n] else [])
        ++ flat_map (find_all_node name) children
  end.

Definition find_all (doc : document) (name : string) : list node :=
  flat_map (find_all_node name) doc.

(** [tag.get(key)] *)
Fixpoint attr_get (attrs : list (string * string)) (key : string) : option string :=
  match attrs with
  | [] => None
  | (k, v) :: r => if String.eqb k key then Some v else attr_get r key
  end.

Definition get (n : node) (key : string) : option string :=
  match n with
  | Tag _ attrs _ => attr_get attrs key
  | Text _ => None
  end.

Definition session_get (E : env) (url : string) : M (Z * option document) :=
  fun w =>
    let n := length (requests w) in
    let w' := World (files w) (requests w ++ [url]) (log w) in
    match site E n url with
    | PageNoReply => (Raise RequestError, w')
    | PageReply status body => (Ret (status, body), w')
    end.

(** [BeautifulSoup(response.content, 'lxml')] *)
Definition BeautifulSoup (body : option document) : M document :=
  match body with
  | Some doc => ret doc
  | None => raise ParserError
  end.

(** The delay of [_respect_rate_limit] changes no result and is left out. *)
Definition _fetch_page (E : env) (word : string) : M (option document) :=
  let normalized_word := _normalize_word word in
  let url := BASE_URL normalized_word in
  try_except
    (logger (INFO ("Fetching page for word: " +:+ word +:+ " (" +:+ url +:+ ")")) >>
     do response <- session_get E url;
     raise_for_status (fst response) >>
     do soup <- BeautifulSoup (snd response);
     ret (Some soup))
    is_RequestException
    (fun e =>
       match e with
       | HTTPError status =>
           if status =? 404 then
             logger (WARNING ("Word '" +:+ word +:+ "' not found on SignASL.org")) >>
             ret None
           else
             logger (ERROR ("HTTP error fetching page for '" +:+ word +:+ "': ") e) >>
             raise e
       | _ =>
           logger (ERROR ("Error fetching page for '" +:+ word +:+ "': ") e) >>
           raise e
       end).

Definition word_exists (E : env) (word : string) : M bool :=
  try_except
    (do soup <- _fetch_page E word;
     match soup with
     | None => ret false
     | Some doc =>
         let videos := find_all doc "video" in
         ret (0 <? Z.of_nat (length videos))
     end)
    (fun _ => true)
    (fun e =>
       logger (ERROR ("Error checking if word '" +:+ word +:+ "' exists: ") e) >>
       ret false).

(** The loop of [get_video_urls] over the [source] tags. *)
Fixpoint collect_urls (sources : list node) (video_urls : list string) : list string :=
  match sources with
  | [] => video_urls
  | source :: rest =>
      match get source "src" with
      | Some src =>
          if Py.truthy src && Py.endswith src ".mp4"
          then collect_urls rest (video_urls ++ [src])
          else collect_urls rest video_urls
      | None => collect_urls rest video_urls
      end
  end.

Definition extract_urls (doc : document) : list string :=
  collect_urls (find_all doc "source") [].

Definition get_video_urls (E : env) (word : string) : M (list string) :=
  do soup <- _fetch_page E word;
  match soup with
  | None => ret []
  | Some doc =>
      let video_urls := extract_urls doc in
      logger (INFO ("Found " +:+ pretty (length video_urls) +:+ " video(s) for word '"
                      +:+ word +:+ "'")) >>
      ret video_urls
  end.

Definition get_primary_video_url (E : env) (word : string) : M (option string) :=
  do video_urls <- get_video_urls E word;
  ret (head video_urls).

(** One entry of the list [get_video_details] returns: the dictionary with
    the keys [url], [poster], [id] and [type]. *)
Record video_info := VideoInfo {
  info_url : string;
  info_poster : string;
  info_id : string;
  info_type : string
}.

(** [tag.find(name)]: the first tag of that name below [tag]. *)
Definition find (n : node) (name : string) : option node :=
  match n with
  | Tag _ _ children => head (find_all children name)
  | Text _ => None
  end.

(** [tag.get(key, default)] *)
Definition get_or (n : node) (key default : string) : string :=
  match get n key with
  | Some v => v
  | None => default
  end.

(** The loop of [get_video_details] over the [video] tags. *)
Fixpoint collect_details (videos : list node) (videos_info : list video_info)
    : list video_info :=
  match videos with
  | [] => videos_info
  | video :: rest =>
      match find video "source" with
      | Some source =>
          let video_info :=
            VideoInfo (get_or source "src" "") (get_or video "poster" "")
                      (get_or video "id" "") (get_or source "type" "video/mp4") in
          collect_details rest (videos_info ++ [video_info])
      | None => collect_details rest videos_info
      end
  end.

Definition extract_details (doc : document) : list video_info :=
  collect_details (find_all doc "video") [].

Definition get_video_details (E : env) (word : string) : M (list video_info) :=
  do soup <- _fetch_page E word;
  match soup with
  | None => ret []
  | Some doc =>
      let videos_info := extract_details doc in
      logger (INFO ("Found " +:+ pretty (length videos_info)
                      +:+ " video(s) with details for word '" +:+ word +:+ "'")) >>
      ret videos_info
  end.

(** ** video_downloader.py *)

Section VideoDownloader.

(** [self.cache_dir] *)
Variable cache_dir : string.

Definition url_hash (video_url : string) : string :=
  Py.take 8 (MD5.hexdigest (Py.encode video_url)).

Definition safe_word (word : string) : string :=
  Py.replace "-" "_" (Py.replace " " "_" (Py.lower word)).

Definition _get_cache_filename (word video_url : string) : string :=
  safe_word word +:+ "_" +:+ url_hash video_url +:+ ".mp4".

(** [str(self.cache_dir / filename)] *)
Definition path_str (filename : string) : string :=
  pathlib.str (pathlib.joinpath (pathlib.Path cache_dir) (pathlib.Path filename)).

Definition _get_cache_path (word video_url : string) : string :=
  path_str (_get_cache_filename word video_url).

Definition is_cached (E : env) (word video_url : string) : M bool :=
  fun w =>
    path_exists (disk E (length (requests w))) (_get_cache_filename word video_url) w.

(** The loop over [response.iter_content]; [k] counts the writes left
    before the one that fails, if one does. *)
Fixpoint write_chunks (name : string) (chunks : list (list Z)) (fin : stream_end)
    (k : option nat) : M unit :=
  match chunks with
  | [] =>
      match fin with
      | Complete => ret tt
      | Broken => raise RequestError
      end
  | chunk :: rest =>
      match chunk with
      | [] => write_chunks name rest fin k
      | _ =>
          match k with
          | Some O => raise OSError
          | _ => write name chunk >> write_chunks name rest fin (pred <$> k)
          end
      end
  end.

Definition failing_write (fault : disk_fault) : option nat :=
  match fault with
  | WriteFails k => Some k
  | _ => None
  end.

(** The [try] block of [download_video]. *)
Definition download_transfer (E : env) (word video_url : string) : M (option string) :=
  let name := _get_cache_filename word video_url in
  let cache_path := _get_cache_path word video_url in
  logger (INFO ("Downloading video for '" +:+ word +:+ "' from " +:+ video_url)) >>
  do response <- requests_get E video_url;
  let '(status, chunks, fin, fault) := response in
  raise_for_status status >>
  open_wb fault name >>
  write_chunks name chunks fin (failing_write fault) >>
  do file_size <- stat_size name;
  logger (INFO ("Downloaded video for '" +:+ word +:+ "' (" +:+ pretty file_size
                  +:+ " bytes) to " +:+ cache_path)) >>
  ret (Some cache_path).

(** Its [except requests.exceptions.RequestException as e] block. *)
Definition download_cleanup (fault : disk_fault) (word video_url : string) (e : exn)
    : M (option string) :=
  let name := _get_cache_filename word video_url in
  logger (ERROR ("Error downloading video for '" +:+ word +:+ "': ") e) >>
  do there <- path_exists fault name;
  (if there then unlink name else ret tt) >>
  ret None.

(** The file system keeps its way with the path for the whole call. *)
Definition download_video (E : env) (word video_url : string) (force : bool)
    : M (option string) :=
  fun w =>
    let fault := disk E (length (requests w)) in
    let name := _get_cache_filename word video_url in
    let cache_path := _get_cache_path word video_url in
    (do cached <- path_exists fault name;
     if cached && negb force then
       logger (INFO ("Video for '" +:+ word +:+ "' already cached at " +:+ cache_path)) >>
       ret (Some cache_path)
     else
       try_except (download_transfer E word video_url)
         is_RequestException
         (download_cleanup fault word video_url)) w.

Fixpoint download_all_loop (E : env) (word : string) (video_urls : list string)
    (force : bool) (cached_paths : list string) : M (list string) :=
  match video_urls with
  | [] => ret cached_paths
  | video_url :: rest =>
      do cache_path <- download_video E word video_url force;
      match cache_path with
      | Some p =>
          if Py.truthy p
          then download_all_loop E word rest force (cached_paths ++ [p])
          else download_all_loop E word rest force cached_paths
      | None => download_all_loop E word rest force cached_paths
      end
  end.

Definition download_all_videos (E : env) (word : string) (video_urls : list string)
    (force : bool) : M (list string) :=
  download_all_loop E word video_urls force [].

Definition word_pattern (word : string) : string :=
  safe_word word +:+ "_*.mp4".

Definition get_cached_videos (word : string) : M (list string) :=
  do cached_videos <- Path_glob (word_pattern word);
  ret (map path_str cached_videos).

(** [Path.glob] does not refuse the pattern [*.mp4]: [list_all_cached] and
    [get_cache_size] always return. *)
Definition list_all_cached (w : world) : list string :=
  map path_str (glob "*.mp4" w).

(** The loop of [clear_cache] over the files to delete. *)
Fixpoint clear_loop (files_to_delete : list string) (count : Z) : M Z :=
  match files_to_delete with
  | [] => ret count
  | file_path :: rest =>
      do count' <-
        try_except
          (unlink file_path >>
           logger (INFO ("Deleted cached video: " +:+ path_str file_path)) >>
           ret (count + 1))
          (fun _ => true)
          (fun e =>
             logger (ERROR ("Error deleting " +:+ path_str file_path +:+ ": ") e) >>
             ret count);
      clear_loop rest count'
  end.

(** [if word:] holds for a word that is given and not empty. *)
Definition files_to_delete (word : option string) : M (list string) :=
  match word with
  | Some wd => if Py.truthy wd then Path_glob (word_pattern wd) else Path_glob "*.mp4"
  | None => Path_glob "*.mp4"
  end.

Definition clear_cache (word : option string) : M Z :=
  do files_to_delete <- files_to_delete word;
  do count <- clear_loop files_to_delete 0;
  logger (INFO ("Cleared " +:+ pretty count +:+ " cached video(s)")) >>
  ret count.

Definition get_cache_size (w : world) : Z :=
  fold_left (fun total_size name =>
               match files w !! name with
               | Some f => total_size + Z.of_nat (length (content f))
               | None => total_size
               end) (glob "*.mp4" w) 0.

End VideoDownloader.

(** ** api/main.py *)

Module Api.

(** What an endpoint gives back: the response model, or the
    [HTTPException] it raises. *)
Inductive response (A : Type) :=
| OK (body : A)
| HTTPException (status_code : Z) (detail : text).
Arguments OK {A} body.
Arguments HTTPException {A} status_code detail.

Definition endpoint (A : Type) : Type := world -> response A * world.

(** [scraper = SignASLScraper(rate_limit_delay=1.0)] *)
Module scraper.
Definition word_exists := word_exists.
Definition get_video_urls := get_video_urls.
End scraper.

(** [downloader = VideoDownloader(cache_dir="cache")] *)
Module downloader.
Definition download_all_videos := download_all_videos "cache".
Definition clear_cache := clear_cache "cache".
End downloader.

(** [try: body / except HTTPException: raise / except Exception as e:
    raise HTTPException(status_code=500, detail=prefix + str(e))]; a body
    that raises an [HTTPException] itself returns it as its response. *)
Definition guarded {A} (body : M (response A)) (prefix : string) : endpoint A :=
  fun w =>
    match body w with
    | (Ret r, w') => (r, w')
    | (Raise e, w') => (HTTPException 500 (StrExn prefix e), w')
    end.

Record WordCheckResponse := {
  check_word_word : string;
  check_word_exists : bool;
  check_word_video_count : Z
}.

Record VideoUrlResponse := {
  video_url_word : string;
  video_url_video_urls : list string
}.

Record VideoDownloadResponse := {
  download_word : string;
  download_success : bool;
  download_cached_videos : list string;
  download_message : string
}.

(** One of the dictionaries [batch_download] appends to [results]: with the
    keys [word], [success], [video_count] and [cached_videos] on success,
    with [word], [success] and [error] otherwise. *)
Inductive batch_result :=
| Downloaded (word : string) (video_count : Z) (cached_videos : list string)
| NotDownloaded (word : string) (error : text).

Record BatchDownloadResponse := {
  batch_total_words : Z;
  batch_successful : Z;
  batch_failed : Z;
  batch_results : list batch_result
}.

Record CacheClearResponse := {
  clear_deleted_count : Z;
  clear_message : string
}.

Definition len {A} (l : list A) : Z := Z.of_nat (length l).

(** Truth value of a list in a condition. *)
Definition nonempty {A} (l : list A) : bool :=
  match l with [] => false | _ => true end.

Definition check_word (E : env) (word : string) : endpoint WordCheckResponse :=
  guarded
    (do exists_ <- scraper.word_exists E word;
     do video_count <-
       (if exists_ : bool then
          do video_urls <- scraper.get_video_urls E word;
          ret (len video_urls)
        else ret 0);
     ret (OK {| check_word_word := word;
                check_word_exists := exists_;
                check_word_video_count := video_count |}))
    "Error checking word: ".

Definition get_video_urls (E : env) (word : string) : endpoint VideoUrlResponse :=
  guarded
    (do video_urls <- scraper.get_video_urls E word;
     if negb (nonempty video_urls) then
       ret (HTTPException 404 (Str ("No videos found for word: " +:+ word)))
     else
       ret (OK {| video_url_word := word; video_url_video_urls := video_urls |}))
    "Error fetching video URLs: ".

Definition download_video (E : env) (word : string) (force : bool)
    : endpoint VideoDownloadResponse :=
  guarded
    (do video_urls <- scraper.get_video_urls E word;
     if negb (nonempty video_urls) then
       ret (HTTPException 404 (Str ("No videos found for word: " +:+ word)))
     else
       do cached_paths <- downloader.download_all_videos E word video_urls force;
       if negb (nonempty cached_paths) then
         ret (OK {| download_word := word;
                    download_success := false;
                    download_cached_videos := [];
                    download_message := "Failed to download videos" |})
       else
         ret (OK {| download_word := word;
                    download_success := true;
                    download_cached_videos := cached_paths;
                    download_message :=
                      "Successfully downloaded " +:+ pretty (length cached_paths)
                        +:+ " video(s)" |}))
    "Error downloading video: ".

(** The running values of the loop of [batch_download]. *)
Record batch_state := {
  results : list batch_result;
  successful : Z;
  failed : Z
}.

(** One turn of the loop of [batch_download]: its [try] block and its
    [except Exception as e] block, which always returns. *)
Definition batch_word (E : env) (force : bool) (st : batch_state) (word : string)
    : M batch_state :=
  try_except
    (do video_urls <- scraper.get_video_urls E word;
     if negb (nonempty video_urls) then
       ret {| results := results st ++ [NotDownloaded word (Str "No videos found")];
              successful := successful st;
              failed := failed st + 1 |}
     else
       do cached_paths <- downloader.download_all_videos E word video_urls force;
       if nonempty cached_paths then
         ret {| results := results st ++ [Downloaded word (len cached_paths) cached_paths];
                successful := successful st + 1;
                failed := failed st |}
       else
         ret {| results := results st ++ [NotDownloaded word (Str "Failed to download videos")];
                successful := successful st;
                failed := failed st + 1 |})
    (fun _ => true)
    (fun e =>
       ret {| results := results st ++ [NotDownloaded word (StrExn "" e)];
              successful := successful st;
              failed := failed st + 1 |}).

Fixpoint batch_loop (E : env) (force : bool) (words : list string) (st : batch_state)
    : M batch_state :=
  match words with
  | [] => ret st
  | word :: rest =>
      do st' <- batch_word E force st word;
      batch_loop E force rest st'
  end.

(** [request.words] and [request.force] are the two last arguments. *)
Definition batch_download (E : env) (words : list string) (force : bool)
    : M BatchDownloadResponse :=
  do st <- batch_loop E force words {| results := []; successful := 0; failed := 0 |};
  ret {| batch_total_words := len words;
         batch_successful := successful st;
         batch_failed := failed st;
         batch_results := results st |}.

Definition clear_cache (word : option string) : endpoint CacheClearResponse :=
  guarded
    (do deleted_count <- downloader.clear_cache word;
     let message :=
       match word with
       | Some wd =>
           if Py.truthy wd
           then "Cleared " +:+ pretty deleted_count +:+ " video(s) for word: " +:+ wd
           else "Cleared all " +:+ pretty deleted_count +:+ " cached video(s)"
       | None => "Cleared all " +:+ pretty deleted_count +:+ " cached video(s)"
       end in
     ret (OK {| clear_deleted_count := deleted_count; clear_message := message |}))
    "Error clearing cache: ".

End Api.

(** ** Vocabulary of the statements *)

Definition is_hex (c : ascii) : bool :=
  existsb (Ascii.eqb c) (list_ascii_of_string "0123456789abcdef").

(** A [source] tag that yields a URL: its [src] ends with [.mp4]. *)
Definition mp4_src (n : node) : option string :=
  match get n "src" with
  | Some src => if Py.endswith src ".mp4" then Some src else None
  | None => None
  end.

(** No glob metacharacter. *)
Definition plain_char (c : ascii) : bool :=
  negb (Ascii.eqb c "*" || Ascii.eqb c "?" || Ascii.eqb c "[").

Definition plain (s : string) : bool := all_chars plain_char s.

(** The word argument of [clear_cache] makes a pattern of one path
    component: its safe form holds no separator. *)
Definition one_component (word : option string) : bool :=
  match word with
  | Some wd => no_sep (safe_word wd)
  | None => true
  end.

(** The pattern opens no character class: it has no bracket that a later
    closing bracket turns into one. *)
Definition classless (pat : string) : bool :=
  forallb (fun t => match t with TClass _ _ => false | _ => true end) (tokens 0 pat).

(** Writes the loop over the chunks performs: one per chunk that is not
    empty. *)
Fixpoint writes (chunks : list (list Z)) : nat :=
  match chunks with
  | [] => O
  | [] :: rest => writes rest
  | _ :: rest => S (writes rest)
  end.

(** The transfer ends in a [RequestException]: no answer, an error status,
    or a stream that breaks before the disk fails. *)
Definition transport_fails (r : http_reply) (fault : disk_fault) : bool :=
  match r with
  | NoReply => true
  | Reply status chunks fin =>
      if (400 <=? status) && (status <? 600) then true
      else
        match fin, fault with
        | Broken, NoFault => true
        | Broken, WriteFails k => bool_decide (writes chunks <= k)%nat
        | _, _ => false
        end
  end.

(** [unlink] succeeds on [name]. *)
Definition deletable (w : world) (name : string) : bool :=
  match files w !! name with
  | Some f => removable f
  | None => false
  end.

Definition is_error (r : log_record) : bool :=
  match r with ERROR _ _ => true | _ => false end.

Definition errors (l : list log_record) : nat := length (List.filter is_error l).

Definition returned {A} (r : outcome A) : bool :=
  match r with Ret _ => true | Raise _ => false end.

(** What [download_video] does on each URL in turn, the world passed on. *)
Fixpoint per_url (cache_dir : string) (E : env) (word : string) (force : bool)
    (video_urls : list string) (w : world) : list (string * outcome (option string)) :=
  match video_urls with
  | [] => []
  | u :: rest =>
      let r := download_video cache_dir E word u force w in
      (u, fst r) :: per_url cache_dir E word force rest (snd r)
  end.

Definition succeeded (r : string * outcome (option string)) : bool :=
  match snd r with
  | Ret (Some _) => true
  | _ => false
  end.

(** The reply of the site to the request [_fetch_page] sends for [word]. *)
Definition page_of (E : env) (word : string) (w : world) : page_reply :=
  site E (length (requests w)) (BASE_URL (_normalize_word word)).

Definition error_status (status : Z) : bool := (400 <=? status) && (status <? 600).

(** Whether [unlink] would be allowed on [name]; a file that is yet to be
    created will be removable. *)
Definition flag (w : world) (name : string) : bool :=
  match files w !! name with
  | Some f => removable f
  | None => true
  end.

Definition failed (r : string * outcome (option string)) : bool :=
  match snd r with
  | Ret None => true
  | _ => false
  end.

(** The tokens of a pattern without metacharacters. *)
Fixpoint lits (s : string) : list token :=
  match s with
  | EmptyString => []
  | String c r => TLit c :: lits r
  end.

(** The pattern [clear_cache] hands to [glob]. *)
Definition clear_pattern (word : option string) : string :=
  match word with
  | Some wd => if Py.truthy wd then word_pattern wd else "*.mp4"
  | None => "*.mp4"
  end.

(** The entry of [name] once the loop of [clear_cache] has gone through
    [targets]: gone if it was a target that [unlink] accepts. *)
Definition after_clear (w : world) (targets : list string) (name : string) : option file :=
  if bool_decide (name ∈ targets) && deletable w name then None else files w !! name.

(** The entry [get_video_details] makes for a [video] tag. *)
Definition detail_of (video : node) : option video_info :=
  match find video "source" with
  | Some source =>
      Some (VideoInfo (get_or source "src" "") (get_or video "poster" "")
                      (get_or video "id" "") (get_or source "type" "video/mp4"))
  | None => None
  end.

(** The tags of a name below a node. *)
Definition below (n : node) (name : string) : list node :=
  match n with
  | Tag _ _ children => find_all children name
  | Text _ => []
  end.

(** The [source] tags inside the [video] tags of a document: its video
    source elements. *)
Definition video_sources (doc : document) : list node :=
  flat_map (fun v => below v "source") (find_all doc "video").

(** Reading UTF-8 back, for code points below 256. *)
Fixpoint decode (bs : list Z) : string :=
  match bs with
  | [] => EmptyString
  | b :: rest =>
      if b <? 128 then String (Py.chr b) (decode rest)
      else
        match rest with
        | b2 :: rest' =>
            String (Py.chr (Z.lor (Z.shiftl (Z.land b 31) 6) (Z.land b2 63))) (decode rest')
        | [] => EmptyString
        end
  end.

(** The URL of the page of a word. *)
Definition page_url (word : string) : string := BASE_URL (_normalize_word word).

(** A leading [ch], set apart. *)
Definition split_head (ch : ascii) (s : string) : string * string :=
  match s with
  | String c r => if Ascii.eqb c ch then (String ch EmptyString, r) else (EmptyString, s)
  | EmptyString => (EmptyString, s)
  end.

Definition no_bracket (s : string) : bool :=
  all_chars (fun c => negb (Ascii.eqb c "]")) s.

(** The size a cached file adds to [get_cache_size]. *)
Definition weight (kf : string * file) : Z :=
  if no_sep (fst kf) && fnmatch (fst kf) "*.mp4"
  then Z.of_nat (length (content (snd kf))) else 0.

Fixpoint sumZ (l : list Z) : Z :=
  match l with
  | [] => 0
  | x :: r => x + sumZ r
  end.

Definition result_word (r : Api.batch_result) : string :=
  match r with
  | Api.Downloaded word _ _ => word
  | Api.NotDownloaded word _ => word
  end.

Definition is_downloaded (r : Api.batch_result) : bool :=
  match r with
  | Api.Downloaded _ _ _ => true
  | Api.NotDownloaded _ _ => false
  end.

Definition count_downloaded (l : list Api.batch_result) : Z :=
  Z.of_nat (length (List.filter is_downloaded l)).

Definition count_not_downloaded (l : list Api.batch_result) : Z :=
  Z.of_nat (length (List.filter (fun r => negb (is_downloaded r)) l)).

(** The result [batch_download] is to record for one word, read off what
    the scraper and the downloader do for it, and the world they leave. *)
Definition word_result (E : env) (force : bool) (word : string) (w : world)
    : Api.batch_result * world :=
  match get_video_urls E word w with
  | (Raise e, w1) => (Api.NotDownloaded word (StrExn "" e), w1)
  | (Ret [], w1) => (Api.NotDownloaded word (Str "No videos found"), w1)
  | (Ret video_urls, w1) =>
      match download_all_videos "cache" E word video_urls force w1 with
      | (Raise e, w2) => (Api.NotDownloaded word (StrExn "" e), w2)
      | (Ret [], w2) => (Api.NotDownloaded word (Str "Failed to download videos"), w2)
      | (Ret cached_paths, w2) =>
          (Api.Downloaded word (Api.len cached_paths) cached_paths, w2)
      end
  end.

Fixpoint word_results (E : env) (force : bool) (words : list string) (w : world)
    : list Api.batch_result :=
  match words with
  | [] => []
  | word :: rest =>
      fst (word_result E force word w)
        :: word_results E force rest (snd (word_result E force word w))
  end.

(** ** Scenarios *)

Definition empty_world : world := World ∅ [] [].

(** Every video is served whole and the disk works. *)
Definition serving_env : env :=
  Env (fun _ _ => Reply 200 [[1; 2]; []; [3]] Complete)
      (fun _ => NoFault)
      (fun _ _ => PageNoReply).

(** The server answers, the second write on the disk fails. *)
Definition disk_full_env : env :=
  Env (fun _ _ => Reply 200 [[1; 2]; [3]] Complete)
      (fun _ => WriteFails 1)
      (fun _ _ => PageNoReply).

(** The URL [u1] is unreachable, the others are served. *)
Definition u1_down_env : env :=
  Env (fun _ u => if String.eqb u "u1" then NoReply else Reply 200 [[7]] Complete)
      (fun _ => NoFault)
      (fun _ _ => PageNoReply).

(** The stream breaks after its first chunk. *)
Definition broken_stream_env : env :=
  Env (fun _ _ => Reply 200 [[9]] Broken)
      (fun _ => NoFault)
      (fun _ _ => PageNoReply).

(** A page with a video that has no [.mp4] source. *)
Definition webm_page : document :=
  [ Tag "html" []
      [ Tag "body" []
          [ Tag "video" [("id", "v1")]
              [ Tag "source" [("src", "clip.webm"); ("type", "video/webm")] [] ] ] ] ].

Definition webm_env : env :=
  Env (fun _ _ => NoReply) (fun _ => NoFault)
      (fun _ _ => PageReply 200 (Some webm_page)).

(** Two videos, one of them listed twice, and a source without [src]. *)
Definition two_videos_page : document :=
  [ Tag "video" [] [ Tag "source" [("src", "a.mp4")] [] ];
    Text "sign";
    Tag "video" [] [ Tag "source" [("src", "b.mp4")] []; Tag "source" [("type", "video/mp4")] [] ];
    Tag "video" [] [ Tag "source" [("src", "a.mp4")] []; Tag "source" [("src", "a.webm")] [] ] ].

(** The site serves the page with the two videos and every video. *)
Definition signing_env : env :=
  Env (fun _ _ => Reply 200 [[7]] Complete)
      (fun _ => NoFault)
      (fun _ _ => PageReply 200 (Some two_videos_page)).

(** The cache after one download for [hello]. *)
Definition hello_cache : world :=
  snd (download_video "cache" serving_env "hello" "u" false empty_world).

(** The cache after one download for [hello] and one for [world]. *)
Definition hello_world_cache : world :=
  snd (download_video "cache" serving_env "world" "u2" false
         (snd (download_video "cache" serving_env "hello" "u1" false empty_world))).

(** The cache after one download for the word [[a] b]. *)
Definition bracket_cache : world :=
  snd (download_video "cache" serving_env "[a] b" "u" false empty_world).

(** The cache after one download for the words [hello world]. *)
Definition hello_world_word_cache : world :=
  snd (download_video "cache" serving_env "hello world" "u" false empty_world).

(** A cache with an entry that cannot be unlinked next to one that can. *)
Definition locked_cache : world :=
  World (<["hello_aaaaaaaa.mp4" := File [1] false]>
           (<["hello_bbbbbbbb.mp4" := File [2] true]> ∅)) [] [].


(** The file system does not take the path of a cache file. *)
Definition name_refused_env : env :=
  Env (fun _ _ => Reply 200 [[1; 2]; []; [3]] Complete)
      (fun _ => NameRefused)
      (fun _ _ => PageNoReply).

(** A page whose only [source] tag is inside an [audio] tag. *)
Definition audio_page : document :=
  [ Tag "html" []
      [ Tag "body" []
          [ Tag "audio" [] [ Tag "source" [("src", "x.mp4")] [] ] ] ] ].

(** The cache after one download for the words [hello x/y], whose file is
    below the cache directory. *)
Definition slash_cache : world :=
  snd (download_video "cache" serving_env "hello x/y" "u" false empty_world).

(** The site serves the page with the audio tag. *)
Definition audio_env : env :=
  Env (fun _ _ => NoReply) (fun _ => NoFault)
      (fun _ _ => PageReply 200 (Some audio_page)).

(** The cache after one download for the words [a** b]. *)
Definition star_cache : world :=
  snd (download_video "cache" serving_env "a** b" "u" false empty_world).

(** A cache whose file for [hello world] cannot be unlinked. *)
Definition locked_longer_cache : world :=
  World (<["hello_world_7b774eff.mp4" := File [1; 2; 3] false]> ∅) [] [].

(** ** Python strings: lemmas *)

Lemma str_map_compose f g (s : string) :
  Py.str_map f (Py.str_map g s) = Py.str_map (fun c => f (g c)) s.
Proof. induction s as [|c s IH]; simpl; [reflexivity | now rewrite IH]. Qed.

Lemma str_map_ext f g (s : string) :
  (forall c, f c = g c) -> Py.str_map f s = Py.str_map g s.
Proof. intros H. induction s as [|c s IH]; simpl; [reflexivity | now rewrite H, IH]. Qed.

Lemma str_map_empty f (s : string) : Py.str_map f s = EmptyString -> s = EmptyString.
Proof. destruct s; simpl; [reflexivity | discriminate]. Qed.

Lemma isspace_lower_char (c : ascii) : Py.isspace (Py.lower_char c) = Py.isspace c.
Proof. destruct c as [[] [] [] [] [] [] [] []]; reflexivity. Qed.

Lemma lstrip_lower (s : string) : Py.lstrip (Py.lower s) = Py.lower (Py.lstrip s).
Proof.
  induction s as [|c s IH]; simpl; [reflexivity|].
  rewrite isspace_lower_char. destruct (Py.isspace c); [exact IH | reflexivity].
Qed.

Lemma rstrip_lower (s : string) : Py.rstrip (Py.lower s) = Py.lower (Py.rstrip s).
Proof.
  induction s as [|c s IH]; simpl; [reflexivity|].
  fold (Py.lower s). rewrite IH.
  destruct (Py.rstrip s) as [|d r] eqn:Hr; simpl.
  - rewrite isspace_lower_char. destruct (Py.isspace c); reflexivity.
  - reflexivity.
Qed.

Lemma strip_lower (s : string) : Py.strip (Py.lower s) = Py.lower (Py.strip s).
Proof. unfold Py.strip. now rewrite lstrip_lower, rstrip_lower. Qed.

(** Folding spaces to hyphens first does not change the safe form. *)
Lemma safe_word_after_hyphens (s : string) :
  Py.replace "-" "_" (Py.replace " " "_" s) = Py.replace "-" "_" (Py.replace " " "-" s).
Proof.
  unfold Py.replace. rewrite !str_map_compose. apply str_map_ext. intros c.
  destruct (Ascii.eqb_spec c " ") as [->|H1]; [reflexivity|].
  reflexivity.
Qed.

Lemma append_nil (b : string) : EmptyString +:+ b = b.
Proof. reflexivity. Qed.

Lemma append_cons (x : ascii) (a b : string) : String x a +:+ b = String x (a +:+ b).
Proof. reflexivity. Qed.

Lemma append_assoc (a b c : string) : (a +:+ b) +:+ c = a +:+ (b +:+ c).
Proof.
  induction a as [|x a IH]; [reflexivity|].
  rewrite !append_cons. f_equal. exact IH.
Qed.

Lemma append_length (a b : string) :
  String.length (a +:+ b) = (String.length a + String.length b)%nat.
Proof.
  induction a as [|x a IH]; [reflexivity|].
  rewrite append_cons. simpl. f_equal. exact IH.
Qed.

Lemma append_inv_head (a b c : string) : a +:+ b = a +:+ c -> b = c.
Proof.
  induction a as [|x a IH]; [tauto|].
  rewrite !append_cons. intros H. injection H. exact IH.
Qed.

Lemma append_inv_tail (a b c : string) : a +:+ c = b +:+ c -> a = b.
Proof.
  revert b. induction a as [|x a IH]; intros [|y b]; rewrite ?append_cons, ?append_nil; intros H.
  - reflexivity.
  - apply (f_equal String.length) in H. simpl in H. rewrite append_length in H. lia.
  - apply (f_equal String.length) in H. simpl in H. rewrite append_length in H. lia.
  - injection H as -> H. f_equal. now apply IH.
Qed.

(** ** The digest: lemmas *)

Lemma hex_digit_is_hex (n : Z) : is_hex (MD5.hex_digit n) = true.
Proof.
  unfold MD5.hex_digit. pose proof (Z.mod_pos_bound n 16 eq_refl) as Hd.
  set (d := n mod 16) in *.
  assert (Hc : d = 0 \/ d = 1 \/ d = 2 \/ d = 3 \/ d = 4 \/ d = 5 \/ d = 6 \/ d = 7 \/
               d = 8 \/ d = 9 \/ d = 10 \/ d = 11 \/ d = 12 \/ d = 13 \/ d = 14 \/ d = 15)
    by lia.
  repeat (destruct Hc as [-> | Hc]; [reflexivity|]). subst d. rewrite Hc. reflexivity.
Qed.

Lemma digest_bytes (msg : list Z) :
  exists b0 b1 b2 b3 rest, MD5.digest msg = b0 :: b1 :: b2 :: b3 :: rest.
Proof.
  unfold MD5.digest. cbv zeta.
  generalize (fold_left MD5.block
    (MD5.blocks (MD5.words (MD5.pad msg)) (length (MD5.words (MD5.pad msg)) / 16)) MD5.init).
  intros st. unfold MD5.word_bytes. simpl. eauto 10.
Qed.

Lemma url_hash_chars (u : string) :
  exists b0 b1 b2 b3,
    url_hash u = MD5.hex_byte b0 +:+ MD5.hex_byte b1 +:+ MD5.hex_byte b2 +:+ MD5.hex_byte b3.
Proof.
  unfold url_hash, MD5.hexdigest.
  destruct (digest_bytes (Py.encode u)) as (b0 & b1 & b2 & b3 & rest & ->).
  exists b0, b1, b2, b3. reflexivity.
Qed.

Lemma hex_byte_length (b : Z) : String.length (MD5.hex_byte b) = 2%nat.
Proof. reflexivity. Qed.

Lemma url_hash_length (u : string) : String.length (url_hash u) = 8%nat.
Proof. destruct (url_hash_chars u) as (b0 & b1 & b2 & b3 & ->). reflexivity. Qed.

Lemma url_hash_hex (u : string) : all_chars is_hex (url_hash u) = true.
Proof.
  destruct (url_hash_chars u) as (b0 & b1 & b2 & b3 & ->).
  unfold MD5.hex_byte. rewrite !append_cons, !append_nil. unfold all_chars.
  now rewrite !hex_digit_is_hex.
Qed.

(** ** The cache key *)

Lemma safe_word_char (word : string) :
  safe_word word =
  Py.str_map (fun c => let l := Py.lower_char c in
                       if Ascii.eqb l " " || Ascii.eqb l "-" then "_"%char else l) word.
Proof.
  unfold safe_word, Py.replace, Py.lower. rewrite !str_map_compose.
  apply str_map_ext. intros c. cbv zeta.
  destruct (Ascii.eqb_spec (Py.lower_char c) " ") as [->|H1]; [reflexivity|].
  reflexivity.
Qed.

Lemma all_chars_str_map (p : ascii -> bool) (f : ascii -> ascii) (s : string) :
  (forall c, p (f c) = true) -> all_chars p (Py.str_map f s) = true.
Proof.
  intros H. induction s as [|c r IH]; [reflexivity|].
  cbn [Py.str_map all_chars]. now rewrite H, IH.
Qed.

Lemma safe_word_folded (word : string) :
  all_chars (fun c => negb (Ascii.eqb c " " || Ascii.eqb c "-")) (safe_word word) = true.
Proof.
  rewrite safe_word_char. apply all_chars_str_map. intros c.
  destruct c as [[] [] [] [] [] [] [] []]; reflexivity.
Qed.

Lemma safe_word_lowered (word : string) : Py.lower (safe_word word) = safe_word word.
Proof.
  rewrite safe_word_char. unfold Py.lower. rewrite str_map_compose.
  apply str_map_ext. intros c.
  destruct c as [[] [] [] [] [] [] [] []]; reflexivity.
Qed.

Lemma cache_filename_inj (word u1 u2 : string) :
  _get_cache_filename word u1 = _get_cache_filename word u2 <-> url_hash u1 = url_hash u2.
Proof.
  unfold _get_cache_filename. split; [|now intros ->].
  intros H. apply append_inv_head in H. apply append_inv_head in H.
  now apply append_inv_tail in H.
Qed.

(** C1, as amended.  For two words without leading or trailing white space
    that [_normalize_word] sends to the same string, and every URL,
    [_get_cache_filename] gives the same file name.  (The file name is built
    from the lower-cased word with each space and hyphen turned into an
    underscore; it is not trimmed.) *)
Theorem cache_filename_of_normalized_words (w1 w2 u : string) :
  Py.strip w1 = w1 ->
  Py.strip w2 = w2 ->
  _normalize_word w1 = _normalize_word w2 ->
  _get_cache_filename w1 u = _get_cache_filename w2 u.
Proof.
  intros H1 H2. unfold _normalize_word. rewrite !strip_lower, H1, H2. intros Hn.
  unfold _get_cache_filename, safe_word.
  rewrite !safe_word_after_hyphens. now rewrite Hn.
Qed.

Lemma cache_filename_of_normalized_words_witness :
  _get_cache_filename "Hello World" "https://media.example/hello.mp4"
  = _get_cache_filename "hello-world" "https://media.example/hello.mp4".
Proof.
  apply cache_filename_of_normalized_words; reflexivity.
Defined.

(** C1 fails as stated: the words [" hello"] and ["hello"] normalize to the
    same string and get two different cache file names. *)
Lemma cache_filename_untrimmed_counterexample :
  _normalize_word " hello" = _normalize_word "hello" /\
  _get_cache_filename " hello" "u" = "_hello_7b774eff.mp4" /\
  _get_cache_filename "hello" "u" = "hello_7b774eff.mp4" /\
  _get_cache_filename " hello" "u" <> _get_cache_filename "hello" "u".
Proof.
  repeat split; try (vm_compute; reflexivity).
  vm_compute. discriminate.
Qed.

Example cache_filename_test_word :
  _get_cache_filename "Test Word" "a.mp4" = "test_word_2a1f2880.mp4" /\
  _get_cache_filename "Test Word" "b.mp4" = "test_word_3cf62b9b.mp4".
Proof. split; vm_compute; reflexivity. Qed.

Example md5_empty : MD5.hexdigest [] = "d41d8cd98f00b204e9800998ecf8427e".
Proof. vm_compute. reflexivity. Qed.

Example md5_abc : MD5.hexdigest (Py.encode "abc") = "900150983cd24fb0d6963f7d28e17f72".
Proof. vm_compute. reflexivity. Qed.

Example normalize_hello_world : _normalize_word " Hello World " = "hello-world".
Proof. reflexivity. Qed.

(** ** The scraper *)

Lemma endswith_mp4_truthy (src : string) :
  Py.truthy src && Py.endswith src ".mp4" = Py.endswith src ".mp4".
Proof. destruct src; reflexivity. Qed.

Lemma collect_urls_omap (sources : list node) (acc : list string) :
  collect_urls sources acc = acc ++ omap mp4_src sources.
Proof.
  revert acc. induction sources as [|n rest IH]; intros acc; simpl.
  - now rewrite app_nil_r.
  - unfold mp4_src. destruct (get n "src") as [src|]; [|apply IH].
    rewrite endswith_mp4_truthy. destruct (Py.endswith src ".mp4"); rewrite IH.
    + now rewrite <- app_assoc.
    + reflexivity.
Qed.

Lemma extract_urls_omap (doc : document) :
  extract_urls doc = omap mp4_src (find_all doc "source").
Proof. unfold extract_urls. now rewrite collect_urls_omap. Qed.

Lemma omap_count {A} (f : A -> option string) (l : list A) (b : string) :
  count_occ string_dec (omap f l) b
  = length (List.filter (fun a => if f a is Some b' then String.eqb b' b else false) l).
Proof.
  induction l as [|a l IH]; [reflexivity|].
  cbn [omap list_omap List.filter]. destruct (f a) as [b'|] eqn:Hf.
  - cbn [count_occ]. destruct (string_dec b' b) as [->|Hne].
    + rewrite String.eqb_refl. simpl. now rewrite IH.
    + rewrite (proj2 (String.eqb_neq _ _) Hne). exact IH.
  - exact IH.
Qed.

Lemma find_all_cons (t : string) (attrs : list (string * string)) (children rest : list node)
    (name : string) :
  find_all (Tag t attrs children :: rest) name
  = (if String.eqb t name then [Tag t attrs children] else [])
      ++ find_all children name ++ find_all rest name.
Proof. unfold find_all. simpl. now rewrite <- app_assoc. Qed.

Lemma find_all_app (d1 d2 : document) (name : string) :
  find_all (d1 ++ d2) name = find_all d1 name ++ find_all d2 name.
Proof. unfold find_all. apply flat_map_app. Qed.

(** The result of [_fetch_page], read off the reply of the site. *)
Lemma fetch_page_outcome (E : env) (word : string) (w : world) :
  fst (_fetch_page E word w) =
  match page_of E word w with
  | PageNoReply => Raise RequestError
  | PageReply status body =>
      if error_status status then
        if status =? 404 then Ret None else Raise (HTTPError status)
      else
        match body with
        | Some doc => Ret (Some doc)
        | None => Raise ParserError
        end
  end.
Proof.
  unfold _fetch_page, page_of, try_except, bind, logger, session_get, raise_for_status,
    error_status. simpl.
  destruct (site E _ _) as [|status body]; simpl; [reflexivity|].
  destruct ((400 <=? status) && (status <? 600)) eqn:Hs; simpl.
  - destruct (status =? 404); reflexivity.
  - destruct body; reflexivity.
Qed.

Lemma word_exists_outcome (E : env) (word : string) (w : world) :
  fst (word_exists E word w) =
  match fst (_fetch_page E word w) with
  | Ret (Some doc) => Ret (0 <? Z.of_nat (length (find_all doc "video")))
  | Ret None => Ret false
  | Raise _ => Ret false
  end.
Proof.
  unfold word_exists, try_except, bind.
  destruct (_fetch_page E word w) as [[[doc|]|e] w1]; reflexivity.
Qed.

Lemma get_video_urls_outcome (E : env) (word : string) (w : world) :
  fst (get_video_urls E word w) =
  match fst (_fetch_page E word w) with
  | Ret (Some doc) => Ret (extract_urls doc)
  | Ret None => Ret []
  | Raise e => Raise e
  end.
Proof.
  unfold get_video_urls, bind.
  destruct (_fetch_page E word w) as [[[doc|]|e] w1]; reflexivity.
Qed.

Lemma has_video_decide (doc : document) :
  (0 <? Z.of_nat (length (find_all doc "video"))) = bool_decide (find_all doc "video" <> []).
Proof.
  destruct (find_all doc "video") as [|v vs]; [reflexivity|].
  rewrite bool_decide_eq_true_2 by discriminate. reflexivity.
Qed.

(** C4.  [word_exists] always returns.  It returns [False] when the site
    answers 404 and whenever fetching the page raises; on a fetched document
    it returns [True] exactly when the document has a [video] tag.  A document
    with a [video] tag and no [source] whose [src] ends with [.mp4] makes
    [word_exists] return [True] and [get_video_urls] return the empty list. *)
Theorem word_exists_spec (E : env) (word : string) (w : world) :
  (exists b w', word_exists E word w = (Ret b, w')) /\
  (forall body, page_of E word w = PageReply 404 body ->
     fst (_fetch_page E word w) = Ret None /\ fst (word_exists E word w) = Ret false) /\
  (forall doc, fst (_fetch_page E word w) = Ret (Some doc) ->
     fst (word_exists E word w) = Ret (bool_decide (find_all doc "video" <> []))) /\
  (forall e, fst (_fetch_page E word w) = Raise e ->
     fst (word_exists E word w) = Ret false) /\
  (forall doc, fst (_fetch_page E word w) = Ret (Some doc) ->
     find_all doc "video" <> [] ->
     Forall (fun n => mp4_src n = None) (find_all doc "source") ->
     fst (word_exists E word w) = Ret true /\ fst (get_video_urls E word w) = Ret []).
Proof.
  pose proof (word_exists_outcome E word w) as Hw.
  repeat split.
  - destruct (word_exists E word w) as [r w'] eqn:Hr. simpl in Hw.
    destruct (fst (_fetch_page E word w)) as [[doc|]|e]; subst r; eauto.
  - rewrite fetch_page_outcome, H. reflexivity.
  - rewrite Hw, fetch_page_outcome, H. reflexivity.
  - intros doc Hd. rewrite Hw, Hd. now rewrite has_video_decide.
  - intros e He. now rewrite Hw, He.
  - rewrite Hw, H, has_video_decide. now rewrite bool_decide_eq_true_2.
  - rewrite get_video_urls_outcome, H, extract_urls_omap. f_equal.
    induction H1 as [|n l Hn _ IH]; [reflexivity|].
    cbn [omap list_omap]. now rewrite Hn.
Qed.

Lemma word_exists_spec_witness :
  fst (word_exists webm_env "Hello" empty_world) = Ret true /\
  fst (get_video_urls webm_env "Hello" empty_world) = Ret [].
Proof.
  apply (word_exists_spec webm_env "Hello" empty_world) with (doc := webm_page).
  - reflexivity.
  - discriminate.
  - vm_compute. repeat constructor.
Defined.

(** C5.  What the loop of [get_video_urls] extracts, and the code at the
    failing input.  On a fetched document it returns the [src] values of the
    [source] tags whose [src] ends with [.mp4], one per such tag, in the
    order in which [find_all] lists the tags (a tag, then the tags inside
    it, then the tags after it), a URL that several tags carry coming once
    per tag.  These are all the [source] tags of the document, whether or
    not they are inside a [video] tag, although the comment of the loop
    says "within video elements": on the page whose only [source] tag is
    inside an [audio] tag there is no [video] tag and no video source
    element, and the URL of the audio source is returned. *)
Theorem get_video_urls_extracts (E : env) (word : string) (w : world) (doc : document) :
  extract_urls doc = omap mp4_src (find_all doc "source") /\
  (forall u, count_occ string_dec (extract_urls doc) u
             = length (List.filter
                         (fun n => if mp4_src n is Some src then String.eqb src u else false)
                         (find_all doc "source"))) /\
  (forall t attrs children rest,
     find_all (Tag t attrs children :: rest) "source"
     = (if String.eqb t "source" then [Tag t attrs children] else [])
         ++ find_all children "source" ++ find_all rest "source") /\
  (fst (_fetch_page E word w) = Ret (Some doc) ->
   fst (get_video_urls E word w) = Ret (extract_urls doc)) /\
  find_all audio_page "video" = [] /\
  omap mp4_src (video_sources audio_page) = [] /\
  extract_urls audio_page = ["x.mp4"] /\
  fst (get_video_urls audio_env "music" empty_world) = Ret ["x.mp4"] /\
  fst (word_exists audio_env "music" empty_world) = Ret false.
Proof.
  split; [apply extract_urls_omap|].
  split; [intros u; rewrite extract_urls_omap; apply omap_count|].
  split; [intros; apply find_all_cons|].
  split; [intros H; now rewrite get_video_urls_outcome, H|].
  repeat split; reflexivity.
Qed.

Example extract_urls_two_videos :
  extract_urls two_videos_page = ["a.mp4"; "b.mp4"; "a.mp4"].
Proof. reflexivity. Qed.

(** ** The downloader *)

Section DownloaderFacts.

Variable cache_dir : string.

Lemma flag_insert (w : world) (name : string) (fs : gmap string file) (f : file) :
  fs !! name = Some f ->
  flag (World fs (requests w) (log w)) name = removable f.
Proof. intros H. unfold flag. simpl. now rewrite H. Qed.

Lemma write_chunks_frame (name : string) (chunks : list (list Z)) (fin : stream_end) :
  forall (k : option nat) (w : world) (r : outcome unit) (w' : world),
  write_chunks name chunks fin k w = (r, w') ->
  requests w' = requests w /\ log w' = log w /\
  (forall other, other <> name -> files w' !! other = files w !! other) /\
  flag w' name = flag w name /\
  (is_Some (files w !! name) -> is_Some (files w' !! name)) /\
  (r = Ret tt \/ r = Raise RequestError \/ r = Raise OSError).
Proof.
  induction chunks as [|chunk rest IH]; intros k w r w' H.
  - destruct fin; inversion H; subst; auto 10.
  - destruct chunk as [|b chunk]; [exact (IH _ _ _ _ H)|].
    cbn [write_chunks] in H.
    assert (Hstep : forall k', bind (write name (b :: chunk)) (fun _ => write_chunks name rest fin k') w = (r, w') ->
      requests w' = requests w /\ log w' = log w /\
      (forall other, other <> name -> files w' !! other = files w !! other) /\
      flag w' name = flag w name /\
      (is_Some (files w !! name) -> is_Some (files w' !! name)) /\
      (r = Ret tt \/ r = Raise RequestError \/ r = Raise OSError)).
    { intros k'. unfold bind, write, set_files.
      destruct (files w !! name) as [f|] eqn:Hf.
      - intros H'. apply IH in H'. simpl in H'.
        destruct H' as (Hr & Hl & Ho & Hfl & Hs & Hres).
        repeat split; auto.
        + intros other Hne. rewrite (Ho other Hne). now apply lookup_insert_ne.
        + rewrite Hfl. unfold flag. simpl. rewrite lookup_insert_eq, Hf. reflexivity.
        + intros _. apply Hs. rewrite lookup_insert_eq. eauto.
      - intros H'. inversion H'; subst. repeat split; auto.
        intros [? ?]; congruence. }
    destruct k as [[|n]|]; [|exact (Hstep _ H)|exact (Hstep _ H)].
    inversion H; subst. auto 10.
Qed.


Lemma write_chunks_run (name : string) (chunks : list (list Z)) (fin : stream_end) :
  forall (k : option nat) (w : world) (f : file),
  files w !! name = Some f ->
  match k with Some n => (writes chunks <= n)%nat | None => True end ->
  exists w',
    write_chunks name chunks fin k w
    = (match fin with Complete => Ret tt | Broken => Raise RequestError end, w') /\
    files w' !! name = Some (File (content f ++ concat chunks) (removable f)).
Proof.
  induction chunks as [|chunk rest IH]; intros k w f Hf Hk.
  - exists w. split; [destruct fin; reflexivity|].
    simpl. rewrite app_nil_r. now destruct f.
  - destruct chunk as [|b chunk]; [exact (IH k w f Hf Hk)|].
    assert (Hk' : match pred <$> k with Some n => (writes rest <= n)%nat | None => True end
                  /\ k <> Some O).
    { destruct k as [[|n]|]; simpl in *; split; try lia; try discriminate; auto. }
    destruct Hk' as [Hk' Hk0].
    set (w1 := World (<[name := File (content f ++ b :: chunk) (removable f)]> (files w))
                 (requests w) (log w)).
    destruct (IH (pred <$> k) w1 (File (content f ++ b :: chunk) (removable f)))
      as (w' & Hrun & Hfile); [apply lookup_insert_eq | exact Hk' |].
    exists w'. split.
    + cbn [write_chunks].
      assert (Hb : bind (write name (b :: chunk))
                     (fun _ => write_chunks name rest fin (pred <$> k)) w
                   = write_chunks name rest fin (pred <$> k) w1).
      { unfold bind, write, set_files. now rewrite Hf. }
      destruct k as [[|n]|]; [congruence| |]; rewrite Hb; exact Hrun.
    + rewrite Hfile. simpl. now rewrite <- app_assoc.
Qed.

Ltac raised :=
  repeat (split; [solve [eauto] |]);
  right; eexists; split; [reflexivity | first [left; reflexivity | right; reflexivity]].

(** What a run of the [try] block changes, and how it can end: with the
    path, with a [RequestException], or with an [OSError] of the disk. *)
Lemma download_transfer_frame (E : env) (word url : string) (w : world)
    (r : outcome (option string)) (w1 : world) :
  download_transfer cache_dir E word url w = (r, w1) ->
  requests w1 = requests w ++ [url] /\
  (forall other, other <> _get_cache_filename word url ->
     files w1 !! other = files w !! other) /\
  flag w1 (_get_cache_filename word url) = flag w (_get_cache_filename word url) /\
  (is_Some (files w !! _get_cache_filename word url) ->
   is_Some (files w1 !! _get_cache_filename word url)) /\
  ((r = Ret (Some (_get_cache_path cache_dir word url)) /\
    is_Some (files w1 !! _get_cache_filename word url)) \/
   (exists e, r = Raise e /\ (is_RequestException e = true \/ e = OSError))).
Proof.
  unfold download_transfer.
  set (name := _get_cache_filename word url). set (path := _get_cache_path cache_dir word url).
  unfold bind at 1. unfold logger at 1. unfold bind at 1. unfold requests_get.
  destruct (remote E (length (requests _)) url) as [|status chunks fin]; simpl.
  { intros H. inversion H; subst. simpl. raised. }
  unfold bind at 1. unfold raise_for_status.
  destruct ((400 <=? status) && (status <? 600)); simpl.
  { intros H. inversion H; subst. simpl. raised. }
  unfold bind at 1. unfold open_wb.
  destruct (disk E (length (requests w))) as [| | |k] eqn:Hd.
  2-3: (intros H; inversion H; subst; simpl; raised).
  all: unfold set_files; simpl; unfold bind at 1;
    match goal with |- context [write_chunks ?n ?c ?f ?k ?w0] =>
      destruct (write_chunks n c f k w0) as [r2 w3] eqn:Hw end;
    apply write_chunks_frame in Hw; simpl in Hw;
    destruct Hw as (Hr & Hl & Ho & Hfl & Hs & Hres);
    (assert (Hflag : flag w3 name = flag w name)
      by (rewrite Hfl; unfold flag; simpl; rewrite lookup_insert_eq; reflexivity));
    (assert (Hoth : forall other, other <> name -> files w3 !! other = files w !! other)
      by (intros other Hne; rewrite (Ho other Hne); now apply lookup_insert_ne));
    (assert (Hpres : is_Some (files w3 !! name))
      by (apply Hs; rewrite lookup_insert_eq; eauto));
    destruct Hres as [-> | [-> | ->]];
    try (intros H; inversion H; subst; raised);
    unfold bind, stat_size, logger; simpl;
    destruct (files w3 !! name) as [f3|] eqn:Hf3; simpl;
    try (exfalso; rewrite ?Hf3 in Hpres; destruct Hpres as [? Hp]; discriminate Hp);
    intros H; inversion H; subst; simpl;
    (split; [assumption|]); (split; [assumption|]); (split; [assumption|]);
    (split; [intros _; rewrite Hf3; eauto|]);
    (left; split; [reflexivity | rewrite Hf3; eauto]).
Qed.

(** The [except] block: it unlinks the file at the cache path when there is
    one, and returns [None] unless [exists] or [unlink] raises. *)
Lemma download_cleanup_run (fault : disk_fault) (word url : string) (e : exn) (w1 : world) :
  exists w',
    download_cleanup fault word url e w1
    = (match files w1 !! _get_cache_filename word url with
       | Some f => if removable f then Ret None else Raise OSError
       | None => match fault with NameRefused => Raise OSError | _ => Ret None end
       end, w') /\
    requests w' = requests w1 /\
    files w'
    = match files w1 !! _get_cache_filename word url with
      | Some f =>
          if removable f then delete (_get_cache_filename word url) (files w1) else files w1
      | None => files w1
      end.
Proof.
  unfold download_cleanup. generalize (_get_cache_filename word url). intros name.
  unfold bind, logger, path_exists, unlink, set_files, ret. simpl.
  destruct (files w1 !! name) as [f|] eqn:Hf; simpl.
  - rewrite Hf. destruct (removable f); eexists; repeat split; reflexivity.
  - destruct fault; eexists; repeat split; reflexivity.
Qed.

Lemma download_video_hit (E : env) (word url : string) (w : world) :
  is_Some (files w !! _get_cache_filename word url) ->
  download_video cache_dir E word url false w
  = (Ret (Some (_get_cache_path cache_dir word url)),
     World (files w) (requests w)
       (log w ++ [INFO ("Video for '" +:+ word +:+ "' already cached at "
                          +:+ _get_cache_path cache_dir word url)])).
Proof.
  intros [f H]. unfold download_video, bind, path_exists. rewrite H. reflexivity.
Qed.

Lemma download_video_miss (E : env) (word url : string) (force : bool) (w : world) :
  bool_decide (is_Some (files w !! _get_cache_filename word url)) && negb force = false ->
  is_Some (files w !! _get_cache_filename word url)
  \/ disk E (length (requests w)) <> NameRefused ->
  download_video cache_dir E word url force w
  = try_except (download_transfer cache_dir E word url) is_RequestException
      (download_cleanup (disk E (length (requests w))) word url) w.
Proof.
  intros H Hok. unfold download_video, bind, path_exists.
  destruct (files w !! _get_cache_filename word url) as [f|] eqn:Hf.
  - rewrite bool_decide_eq_true_2 in H by eauto. simpl in H. now rewrite H.
  - destruct Hok as [[? ?]|Hok]; [discriminate|].
    destruct (disk E (length (requests w))); try reflexivity. congruence.
Qed.

(** A path the file system does not take: [exists] raises before the [try]
    block, and nothing is requested. *)
Lemma download_video_refused (E : env) (word url : string) (force : bool) (w : world) :
  files w !! _get_cache_filename word url = None ->
  disk E (length (requests w)) = NameRefused ->
  download_video cache_dir E word url force w = (Raise OSError, w).
Proof.
  intros Hn Hd. unfold download_video, bind, path_exists. now rewrite Hn, Hd.
Qed.

Lemma delete_frame (name : string) (m1 m2 : gmap string file) :
  (forall other, other <> name -> m1 !! other = m2 !! other) ->
  delete name m1 = delete name m2.
Proof.
  intros H. apply map_eq. intros i. destruct (decide (i = name)) as [->|Hne].
  - now rewrite !lookup_delete_eq.
  - rewrite !lookup_delete_ne by congruence. now apply H.
Qed.

Lemma disk_fault_refused (fault : disk_fault) : fault = NameRefused \/ fault <> NameRefused.
Proof. destruct fault; auto; right; discriminate. Qed.

(** Every way the [try] block and its handler can end. *)
Lemma download_attempt_cases (E : env) (fault : disk_fault) (word url : string) (w : world)
    (r : outcome (option string)) (w' : world) :
  try_except (download_transfer cache_dir E word url) is_RequestException
    (download_cleanup fault word url) w = (r, w') ->
  (forall other, other <> _get_cache_filename word url ->
     files w' !! other = files w !! other) /\
  requests w' = requests w ++ [url] /\
  ((r = Ret (Some (_get_cache_path cache_dir word url)) /\
    is_Some (files w' !! _get_cache_filename word url)) \/
   (r = Ret None /\ files w' !! _get_cache_filename word url = None) \/
   r = Raise OSError).
Proof.
  set (name := _get_cache_filename word url). unfold try_except.
  destruct (download_transfer cache_dir E word url w) as [r1 w1] eqn:Ht.
  apply download_transfer_frame in Ht. fold name in Ht.
  destruct Ht as (Hreq & Hoth & Hfl & Hpres & [[-> Hs] | (e & -> & He)]).
  - intros H. inversion H; subst. auto.
  - destruct (is_RequestException e) eqn:Hre.
    + destruct (download_cleanup_run fault word url e w1) as (w2 & Hrun & Hreq2 & Hfs).
      fold name in Hrun, Hfs. rewrite Hrun. intros H. inversion H; subst; clear H.
      split; [|split; [congruence|]].
      * intros other Hne. rewrite Hfs.
        destruct (files w1 !! name) as [f1|]; [destruct (removable f1)|];
          rewrite ?lookup_delete_ne by congruence; now apply Hoth.
      * destruct (files w1 !! name) as [f1|] eqn:Hf1.
        -- destruct (removable f1); [|auto].
           right. left. split; [reflexivity|]. rewrite Hfs. apply lookup_delete_eq.
        -- destruct fault; auto; right; left; (split; [reflexivity|]); now rewrite Hfs.
    + intros H. inversion H; subst. split; [exact Hoth|]. split; [exact Hreq|].
      right. right. destruct He as [He | ->]; [congruence | reflexivity].
Qed.

(** Every way [download_video] can end. *)
Lemma download_video_cases (E : env) (word url : string) (force : bool) (w : world)
    (r : outcome (option string)) (w' : world) :
  download_video cache_dir E word url force w = (r, w') ->
  (forall other, other <> _get_cache_filename word url ->
     files w' !! other = files w !! other) /\
  ((is_Some (files w !! _get_cache_filename word url) /\ force = false /\
    r = Ret (Some (_get_cache_path cache_dir word url)) /\
    files w' = files w /\ requests w' = requests w) \/
   (files w !! _get_cache_filename word url = None /\
    disk E (length (requests w)) = NameRefused /\ r = Raise OSError /\ w' = w) \/
   ((files w !! _get_cache_filename word url = None \/ force = true) /\
    requests w' = requests w ++ [url] /\
    ((r = Ret (Some (_get_cache_path cache_dir word url)) /\
      is_Some (files w' !! _get_cache_filename word url)) \/
     (r = Ret None /\ files w' !! _get_cache_filename word url = None) \/
     r = Raise OSError))).
Proof.
  set (name := _get_cache_filename word url).
  destruct (bool_decide (is_Some (files w !! name)) && negb force) eqn:Hc.
  { apply andb_true_iff in Hc as [Hs Hf]. apply bool_decide_eq_true in Hs.
    apply negb_true_iff in Hf. subst force.
    rewrite download_video_hit by exact Hs. intros H. inversion H; subst. simpl.
    split; [reflexivity|]. left. auto. }
  assert (Hmiss : files w !! name = None \/ force = true).
  { apply andb_false_iff in Hc as [Hs|Hf].
    - left. apply bool_decide_eq_false in Hs. now apply eq_None_not_Some.
    - right. now apply negb_false_iff in Hf. }
  assert (Hok : is_Some (files w !! name) \/ disk E (length (requests w)) <> NameRefused
                \/ (files w !! name = None /\ disk E (length (requests w)) = NameRefused)).
  { destruct (files w !! name) as [f|]; [left; eauto|].
    destruct (disk_fault_refused (disk E (length (requests w)))); auto. }
  destruct Hok as [Hok | [Hok | [Hn Hd]]].
  - rewrite download_video_miss by auto. intros H.
    apply download_attempt_cases in H. destruct H as (Hoth & Hreq & Hres).
    split; [exact Hoth|]. right. right. auto.
  - rewrite download_video_miss by auto. intros H.
    apply download_attempt_cases in H. destruct H as (Hoth & Hreq & Hres).
    split; [exact Hoth|]. right. right. auto.
  - rewrite download_video_refused by assumption. intros H. inversion H; subst.
    split; [reflexivity|]. right. left. auto.
Qed.

(** A transfer that fails in transport raises a [RequestException]. *)
Lemma download_transfer_transport_failure (E : env) (word url : string) (w : world) :
  transport_fails (remote E (length (requests w)) url) (disk E (length (requests w))) = true ->
  exists e w1,
    download_transfer cache_dir E word url w = (Raise e, w1) /\ is_RequestException e = true.
Proof.
  unfold transport_fails, download_transfer.
  set (name := _get_cache_filename word url).
  unfold bind at 1. unfold logger at 1. unfold bind at 1. unfold requests_get.
  destruct (remote E (length (requests _)) url) as [|status chunks fin]; simpl.
  { intros _. eauto. }
  unfold bind at 1. unfold raise_for_status.
  destruct ((400 <=? status) && (status <? 600)); simpl.
  { intros _. eauto. }
  destruct fin; [discriminate|].
  destruct (disk E (length (requests w))) as [| | |k] eqn:Hd; [|discriminate|discriminate|];
    intros Hk;
    unfold bind at 1; unfold open_wb, set_files; simpl; unfold bind at 1;
    match goal with |- context [write_chunks ?n ?c ?f ?k ?w0] =>
      destruct (write_chunks_run n c f k w0 (File [] (flag w name))) as (w3 & Hrun & _);
        [ simpl; unfold flag; apply lookup_insert_eq
        | first [ exact I | simpl; now apply bool_decide_eq_true in Hk ]
        | unfold flag in Hrun; rewrite Hrun; eauto ]
    end.
Qed.

(** A transfer that fails in transport, with a file at the cache path that
    can be unlinked or none: [None], and no file at the cache path. *)
Lemma download_video_transport_failure (E : env) (word url : string) (force : bool)
    (w : world) :
  bool_decide (is_Some (files w !! _get_cache_filename word url)) && negb force = false ->
  is_Some (files w !! _get_cache_filename word url)
  \/ disk E (length (requests w)) <> NameRefused ->
  transport_fails (remote E (length (requests w)) url) (disk E (length (requests w))) = true ->
  flag w (_get_cache_filename word url) = true ->
  exists w',
    download_video cache_dir E word url force w = (Ret None, w') /\
    files w' = delete (_get_cache_filename word url) (files w) /\
    requests w' = requests w ++ [url].
Proof.
  intros Hc Hok Ht Hfl. rewrite download_video_miss by assumption. unfold try_except.
  destruct (download_transfer_transport_failure E word url w Ht) as (e & w1 & Hrun & He).
  rewrite Hrun, He.
  apply download_transfer_frame in Hrun. destruct Hrun as (Hreq & Hoth & Hfl1 & Hpres & _).
  destruct (download_cleanup_run (disk E (length (requests w))) word url e w1)
    as (w' & Hcl & Hreq' & Hfs).
  rewrite Hcl. exists w'. rewrite Hfl in Hfl1. unfold flag in Hfl1.
  destruct (files w1 !! _get_cache_filename word url) as [f1|] eqn:Hf1.
  - rewrite Hfl1 in *. split; [reflexivity|]. split; [|congruence].
    rewrite Hfs. now apply delete_frame.
  - assert (Hd : disk E (length (requests w)) <> NameRefused).
    { destruct Hok as [Hs|Hd]; [|exact Hd]. apply Hpres in Hs. destruct Hs as [? ?].
      discriminate. }
    split; [destruct (disk E (length (requests w))); congruence|]. split; [|congruence].
    rewrite Hfs, <- (delete_id (files w1) (_get_cache_filename word url)) by exact Hf1.
    now apply delete_frame.
Qed.


Lemma path_str_names (filename : string) :
  Py.truthy (path_str cache_dir filename) = true.
Proof.
  unfold path_str, pathlib.str.
  destruct (pathlib.root _) as [|c r] eqn:Hroot; [|reflexivity].
  destruct (pathlib.names _) as [|n ns] eqn:Hnames; [reflexivity|].
  rewrite append_nil.
  assert (Hn : forall p q, Forall (fun x => Py.truthy x = true) (pathlib.names p) ->
                 Forall (fun x => Py.truthy x = true) (pathlib.names q) ->
                 Forall (fun x => Py.truthy x = true) (pathlib.names (pathlib.joinpath p q))).
  { intros p q Hp Hq. unfold pathlib.joinpath. destruct (Py.truthy (pathlib.root q)); [exact Hq|].
    simpl. apply Forall_app. auto. }
  assert (Hp : forall s, Forall (fun x => Py.truthy x = true) (pathlib.names (pathlib.Path s))).
  { intros s. unfold pathlib.Path. destruct (pathlib.splitroot s) as [rt rel]. simpl.
    apply Forall_forall. intros x Hx. apply list_elem_of_In, filter_In in Hx as [_ Hx].
    destruct x; [discriminate | reflexivity]. }
  pose proof (Hn _ _ (Hp cache_dir) (Hp filename)) as Hall. rewrite Hnames in Hall.
  inversion Hall as [|x l Hx _]; subst. simpl. destruct n; [discriminate|].
  destruct ns; reflexivity.
Qed.

Lemma path_str_truthy (filename : string) : Py.truthy (path_str cache_dir filename) = true.
Proof. apply path_str_names. Qed.

Lemma per_url_urls (E : env) (word : string) (force : bool) (urls : list string) :
  forall w, map fst (per_url cache_dir E word force urls w) = urls.
Proof.
  induction urls as [|u rest IH]; intros w; [reflexivity|].
  cbn [per_url map fst]. now rewrite IH.
Qed.

Lemma download_all_loop_spec (E : env) (word : string) (force : bool) (urls : list string) :
  forall (acc : list string) (w : world),
  Forall (fun x => returned (snd x) = true) (per_url cache_dir E word force urls w) ->
  exists w',
    download_all_loop cache_dir E word urls force acc w
    = (Ret (acc ++ map (_get_cache_path cache_dir word)
                     (map fst (List.filter succeeded (per_url cache_dir E word force urls w)))),
       w').
Proof.
  induction urls as [|u rest IH]; intros acc w Hall.
  - exists w. simpl. now rewrite app_nil_r.
  - cbn [per_url] in Hall. inversion Hall as [|x l Hu Hrest]; subst. simpl in Hu.
    cbn [download_all_loop per_url List.filter]. unfold bind at 1.
    destruct (download_video cache_dir E word u force w) as [r w1] eqn:Hd. simpl in *.
    destruct r as [p|e]; [|discriminate].
    apply download_video_cases in Hd.
    destruct Hd as (_ & [(_ & _ & Hr & _) | [(_ & _ & Hr & _) |
                          (_ & _ & [[Hr _] | [[Hr _] | Hr]])]]);
      try discriminate; injection Hr as ->.
    + unfold succeeded at 1. cbn [snd map fst]. unfold _get_cache_path at 1.
      rewrite path_str_truthy.
      destruct (IH (acc ++ [_get_cache_path cache_dir word u]) w1 Hrest) as (w' & ->).
      exists w'. now rewrite <- app_assoc.
    + unfold succeeded at 1. cbn [snd map fst]. unfold _get_cache_path at 1.
      rewrite path_str_truthy.
      destruct (IH (acc ++ [_get_cache_path cache_dir word u]) w1 Hrest) as (w' & ->).
      exists w'. now rewrite <- app_assoc.
    + unfold succeeded at 1. cbn [snd]. exact (IH acc w1 Hrest).
Qed.

(** A transfer that is served whole on a working disk returns the path. *)
Lemma download_transfer_complete (E : env) (word url : string) (w : world)
    (status : Z) (chunks : list (list Z)) :
  remote E (length (requests w)) url = Reply status chunks Complete ->
  error_status status = false ->
  disk E (length (requests w)) = NoFault ->
  exists w1,
    download_transfer cache_dir E word url w
    = (Ret (Some (_get_cache_path cache_dir word url)), w1).
Proof.
  intros Hr Hs Hd. unfold download_transfer, error_status in *.
  set (name := _get_cache_filename word url).
  unfold bind at 1. unfold logger at 1. unfold bind at 1. unfold requests_get. simpl.
  rewrite Hr, Hd. unfold bind at 1. unfold raise_for_status. rewrite Hs. simpl.
  unfold bind at 1. unfold open_wb, set_files. simpl. unfold bind at 1.
  match goal with |- context [write_chunks ?n ?c ?f ?k ?w0] =>
    destruct (write_chunks_run n c f k w0 (File [] (flag w name))) as (w3 & Hrun & Hfile);
      [ simpl; unfold flag; apply lookup_insert_eq | exact I | ]
  end.
  unfold flag in Hrun. rewrite Hrun. unfold bind, stat_size, logger, ret.
  rewrite Hfile. eauto.
Qed.

Lemma download_video_returns (E : env) (word url : string) (force : bool) (w : world) :
  disk E (length (requests w)) = NoFault ->
  flag w (_get_cache_filename word url) = true ->
  exists p w', download_video cache_dir E word url force w = (Ret p, w').
Proof.
  intros Hd Hfl.
  assert (Hok : is_Some (files w !! _get_cache_filename word url)
                \/ disk E (length (requests w)) <> NameRefused)
    by (right; rewrite Hd; discriminate).
  destruct (bool_decide (is_Some (files w !! _get_cache_filename word url)) && negb force)
    eqn:Hc.
  - apply andb_true_iff in Hc as [Hs Hf]. apply bool_decide_eq_true in Hs.
    apply negb_true_iff in Hf. subst force. rewrite download_video_hit by exact Hs. eauto.
  - destruct (transport_fails (remote E (length (requests w)) url)
                (disk E (length (requests w)))) eqn:Ht.
    + destruct (download_video_transport_failure E word url force w Hc Hok Ht Hfl)
        as (w' & Hrun & _). eauto.
    + rewrite download_video_miss by assumption. unfold try_except.
      unfold transport_fails in Ht. rewrite Hd in Ht.
      destruct (remote E (length (requests w)) url) as [|status chunks fin] eqn:Hr;
        [discriminate|].
      destruct ((400 <=? status) && (status <? 600)) eqn:Hs; [discriminate|].
      destruct fin; [|discriminate].
      destruct (download_transfer_complete E word url w status chunks Hr Hs Hd) as (w1 & ->).
      eauto.
Qed.

(** [download_video] leaves no file that cannot be unlinked where there was
    none. *)
Lemma download_attempt_flag (E : env) (fault : disk_fault) (word url : string) (w : world)
    (r : outcome (option string)) (w' : world) :
  try_except (download_transfer cache_dir E word url) is_RequestException
    (download_cleanup fault word url) w = (r, w') ->
  flag w (_get_cache_filename word url) = true ->
  flag w' (_get_cache_filename word url) = true.
Proof.
  set (name := _get_cache_filename word url). unfold try_except. intros H Hw.
  destruct (download_transfer cache_dir E word url w) as [r1 w1] eqn:Ht.
  apply download_transfer_frame in Ht. fold name in Ht.
  destruct Ht as (_ & _ & Hfl & _). rewrite Hw in Hfl.
  destruct r1 as [p|e]; [inversion H; subst; exact Hfl|].
  destruct (is_RequestException e); [|inversion H; subst; exact Hfl].
  destruct (download_cleanup_run fault word url e w1) as (w2 & Hrun & _ & Hfs).
  fold name in Hrun, Hfs. rewrite Hrun in H. inversion H; subst; clear H.
  unfold flag in *. rewrite Hfs.
  destruct (files w1 !! name) as [f1|] eqn:Hf1.
  - destruct (removable f1); [now rewrite lookup_delete_eq | now rewrite Hf1].
  - now rewrite Hf1.
Qed.

Lemma download_video_flags (E : env) (word url : string) (force : bool) (w : world)
    (r : outcome (option string)) (w' : world) :
  download_video cache_dir E word url force w = (r, w') ->
  (forall x, flag w x = true) -> forall x, flag w' x = true.
Proof.
  set (name := _get_cache_filename word url). intros H Hall x.
  pose proof (download_video_cases E word url force w r w' H) as (Hoth & Hcases).
  destruct (decide (x = name)) as [->|Hne];
    [|unfold flag; rewrite (Hoth x Hne); apply Hall].
  destruct Hcases as [(_ & _ & _ & Hfs & _) | [(_ & _ & _ & ->) | (Hm & _)]].
  - unfold flag. rewrite Hfs. apply Hall.
  - apply Hall.
  - fold name in Hm. assert (Hok : is_Some (files w !! name) \/ disk E (length (requests w)) <> NameRefused
                  \/ (files w !! name = None /\ disk E (length (requests w)) = NameRefused)).
    { destruct (files w !! name) as [f|]; [left; eauto|].
      destruct (disk_fault_refused (disk E (length (requests w)))); auto. }
    assert (Hc : bool_decide (is_Some (files w !! name)) && negb force = false).
    { destruct Hm as [Hn | ->]; [|apply andb_false_r].
      rewrite bool_decide_eq_false_2; [reflexivity|]. rewrite Hn. intros [? ?]. discriminate. }
    destruct Hok as [Hok | [Hok | [Hn Hd]]].
    + rewrite download_video_miss in H by auto.
      exact (download_attempt_flag E _ word url w r w' H (Hall _)).
    + rewrite download_video_miss in H by auto.
      exact (download_attempt_flag E _ word url w r w' H (Hall _)).
    + rewrite download_video_refused in H by assumption. inversion H; subst. apply Hall.
Qed.

Lemma per_url_returns (E : env) (word : string) (force : bool) (urls : list string) :
  (forall n, disk E n = NoFault) ->
  forall w, (forall x, flag w x = true) ->
  Forall (fun x => returned (snd x) = true) (per_url cache_dir E word force urls w).
Proof.
  intros Hd. induction urls as [|u rest IH]; intros w Hall; [constructor|].
  cbn [per_url].
  destruct (download_video_returns E word u force w (Hd _) (Hall _)) as (p & w' & Hrun).
  rewrite Hrun. constructor; [reflexivity|]. apply IH.
  exact (download_video_flags E word u force w _ _ Hrun Hall).
Qed.

Lemma succeeded_or_failed (l : list (string * outcome (option string))) :
  Forall (fun x => returned (snd x) = true) l ->
  (length (List.filter succeeded l) + length (List.filter failed l) = length l)%nat.
Proof.
  induction 1 as [|[u r] l Hr _ IH]; [reflexivity|].
  simpl in Hr. destruct r as [[p|]|e]; try discriminate;
    cbn [List.filter succeeded failed snd length]; lia.
Qed.

(** X6.  When the file system takes the paths and neither [open] nor a
    write fails (no fault of the disk), and the files of the cache can all
    be unlinked, [download_all_videos] returns whatever the network does: it
    returns the cache paths of the URLs whose download returned a path, in
    the order of the URLs, the downloads that returned [None] are passed
    over, and the paths and these downloads are as many as the URLs. *)
Theorem download_all_videos_no_disk_fault (E : env) (word : string) (urls : list string)
    (force : bool) (w : world) :
  (forall n, disk E n = NoFault) ->
  (forall x, flag w x = true) ->
  exists paths w',
    download_all_videos cache_dir E word urls force w = (Ret paths, w') /\
    (length paths <= length urls)%nat /\
    paths = map (_get_cache_path cache_dir word)
              (map fst (List.filter succeeded (per_url cache_dir E word force urls w))) /\
    (length paths + length (List.filter failed (per_url cache_dir E word force urls w))
     = length urls)%nat.
Proof.
  intros Hd Hall. pose proof (per_url_returns E word force urls Hd w Hall) as Hret.
  destruct (download_all_loop_spec E word force urls [] w Hret) as (w' & Hrun).
  eexists. exists w'. split; [exact Hrun|].
  pose proof (succeeded_or_failed _ Hret) as Hn.
  assert (Hlen : length urls = length (per_url cache_dir E word force urls w)).
  { rewrite <- (per_url_urls E word force urls w) at 1. apply length_map. }
  rewrite app_nil_l, !length_map, Hlen. split; [lia|]. split; [reflexivity | lia].
Qed.


(** C3.  When the cache path exists and [force] is false, [download_video]
    returns the path and sends no request.  After a call without [force]
    that returned a path, a second call returns the same path, sends no
    request and leaves the files as they are; the first call sent one
    request when the file was not cached, and none when it was. *)
Theorem download_video_idempotent (E E2 : env) (word url : string) (w : world) :
  (is_Some (files w !! _get_cache_filename word url) ->
   exists w',
     download_video cache_dir E word url false w
     = (Ret (Some (_get_cache_path cache_dir word url)), w') /\
     files w' = files w /\ requests w' = requests w) /\
  (forall p w1,
     download_video cache_dir E word url false w = (Ret (Some p), w1) ->
     p = _get_cache_path cache_dir word url /\
     (exists w2,
        download_video cache_dir E2 word url false w1 = (Ret (Some p), w2) /\
        files w2 = files w1 /\ requests w2 = requests w1) /\
     (files w !! _get_cache_filename word url = None -> requests w1 = requests w ++ [url]) /\
     (is_Some (files w !! _get_cache_filename word url) -> requests w1 = requests w)).
Proof.
  split.
  - intros Hs. rewrite download_video_hit by exact Hs. eauto.
  - intros p w1 H. apply download_video_cases in H.
    destruct H as (_ & [(Hs & _ & Hr & Hfs & Hreq) | [(_ & _ & Hr & _) |
                         (Hm & Hreq & [[Hr Hs] | [[Hr _] | Hr]])]]);
      try discriminate; injection Hr as ->.
    + split; [reflexivity|]. split; [|split; [|auto]].
      * rewrite download_video_hit by (rewrite Hfs; exact Hs). eauto.
      * intros Hn. destruct Hs as [? ?]. congruence.
    + split; [reflexivity|]. split; [|split; [auto|]].
      * rewrite download_video_hit by exact Hs. eauto.
      * intros [? Hsome]. destruct Hm as [Hn|?]; [congruence | discriminate].
Qed.

End DownloaderFacts.

(** C2.  The code at the failing input: the server sends two chunks and the
    second write raises an [OSError] (the disk is full).  The handler of
    [download_video] is for [RequestException] alone: the [OSError] leaves
    the call, and the file with the first chunk stays at the cache path.
    On the sibling path, a stream that breaks after its first chunk, the
    same call returns [None] and leaves no file. *)
Lemma download_video_disk_error :
  fst (download_video "cache" disk_full_env "hello" "u" false empty_world) = Raise OSError /\
  files (snd (download_video "cache" disk_full_env "hello" "u" false empty_world))
    !! "hello_7b774eff.mp4" = Some (File [1; 2] true) /\
  fst (download_video "cache" broken_stream_env "hello" "u" false empty_world) = Ret None /\
  files (snd (download_video "cache" broken_stream_env "hello" "u" false empty_world))
    !! "hello_7b774eff.mp4" = None.
Proof. repeat split; vm_compute; reflexivity. Qed.

(** C6.  The code at the failing input: two URLs, and a disk that refuses
    the second write of a transfer.  The [OSError] that [download_video]
    lets through (see C2) ends [download_all_videos]: the batch raises after
    the request for the first URL, and the second URL is never tried.  With
    the first URL unreachable instead, the failure is passed over and the
    path of the second URL is returned. *)
Lemma download_all_videos_disk_error :
  fst (download_all_videos "cache" disk_full_env "hello" ["u1"; "u2"] false empty_world)
  = Raise OSError /\
  requests (snd (download_all_videos "cache" disk_full_env "hello" ["u1"; "u2"] false
                   empty_world)) = ["u1"] /\
  fst (download_all_videos "cache" u1_down_env "hello" ["u1"; "u2"] false empty_world)
  = Ret ["cache/hello_270c1b08.mp4"] /\
  requests (snd (download_all_videos "cache" u1_down_env "hello" ["u1"; "u2"] false
                   empty_world)) = ["u1"; "u2"].
Proof. repeat split; vm_compute; reflexivity. Qed.



Lemma download_video_idempotent_witness :
  _get_cache_path "cache" "hello" "u" = _get_cache_path "cache" "hello" "u" /\
  (exists w2,
     download_video "cache" u1_down_env "hello" "u" false hello_cache
     = (Ret (Some (_get_cache_path "cache" "hello" "u")), w2) /\
     files w2 = files hello_cache /\ requests w2 = requests hello_cache) /\
  (files empty_world !! _get_cache_filename "hello" "u" = None ->
   requests hello_cache = requests empty_world ++ ["u"]) /\
  (is_Some (files empty_world !! _get_cache_filename "hello" "u") ->
   requests hello_cache = requests empty_world).
Proof.
  apply (download_video_idempotent "cache" serving_env u1_down_env "hello" "u" empty_world).
  reflexivity.
Defined.

Lemma download_all_videos_no_disk_fault_witness :
  exists paths w',
    download_all_videos "cache" u1_down_env "hello" ["u1"; "u2"] false empty_world
    = (Ret paths, w') /\
    (length paths <= length ["u1"; "u2"])%nat /\
    paths = map (_get_cache_path "cache" "hello")
              (map fst (List.filter succeeded
                          (per_url "cache" u1_down_env "hello" false ["u1"; "u2"] empty_world))) /\
    (length paths
     + length (List.filter failed
                 (per_url "cache" u1_down_env "hello" false ["u1"; "u2"] empty_world))
     = length ["u1"; "u2"])%nat.
Proof.
  apply (download_all_videos_no_disk_fault "cache" u1_down_env "hello" ["u1"; "u2"] false
           empty_world); reflexivity.
Defined.


Example download_all_partial_success :
  fst (download_all_videos "cache" u1_down_env "hello" ["u1"; "u2"] false empty_world)
  = Ret ["cache/hello_270c1b08.mp4"].
Proof. vm_compute. reflexivity. Qed.

(** ** The cache key, pinned down *)

Lemma str_map_length (f : ascii -> ascii) (s : string) :
  String.length (Py.str_map f s) = String.length s.
Proof. induction s as [|c s IH]; simpl; [reflexivity | now rewrite IH]. Qed.

Lemma decode_encode_char (c : ascii) (l : list Z) :
  decode (Py.encode_char c ++ l) = String c (decode l).
Proof. destruct c as [[] [] [] [] [] [] [] []]; reflexivity. Qed.

(** [str.encode] loses nothing: the bytes give the string back. *)
Lemma decode_encode (s : string) : decode (Py.encode s) = s.
Proof.
  induction s as [|c s IH]; [reflexivity|].
  cbn [Py.encode]. now rewrite decode_encode_char, IH.
Qed.

Lemma encode_inj (u1 u2 : string) : Py.encode u1 = Py.encode u2 -> u1 = u2.
Proof. intros H. apply (f_equal decode) in H. now rewrite !decode_encode in H. Qed.

(** C7.  The cache file name is a function of the word and the URL alone,
    the same in every state of the world.  Its form: the safe form of the
    word, an underscore, the hash of the URL and [.mp4].  The safe form is
    the word, character by character, in lower case with space and hyphen
    turned into an underscore.  The hash is the first eight hexadecimal
    digits of the MD5 digest (RFC 1321, with its test vectors) of the UTF-8
    bytes of the URL, which determine the URL.  For one word, two URLs get
    the same file name exactly when these eight digits agree. *)
Theorem cache_filename_deterministic (word u1 u2 : string) :
  _get_cache_filename word u1 = safe_word word +:+ "_" +:+ url_hash u1 +:+ ".mp4" /\
  (safe_word word
   = Py.str_map (fun c => let l := Py.lower_char c in
                          if Ascii.eqb l " " || Ascii.eqb l "-" then "_"%char else l) word /\
   String.length (safe_word word) = String.length word /\
   Py.lower (safe_word word) = safe_word word /\
   all_chars (fun c => negb (Ascii.eqb c " " || Ascii.eqb c "-")) (safe_word word) = true /\
   safe_word "Hello World-Sign" = "hello_world_sign") /\
  (url_hash u1 = Py.take 8 (MD5.hexdigest (Py.encode u1)) /\
   String.length (url_hash u1) = 8%nat /\
   all_chars is_hex (url_hash u1) = true /\
   (Py.encode u1 = Py.encode u2 -> u1 = u2) /\
   Py.encode (String "233" (String "A" EmptyString)) = [195; 169; 65] /\
   MD5.hexdigest (Py.encode "") = "d41d8cd98f00b204e9800998ecf8427e" /\
   MD5.hexdigest (Py.encode "abc") = "900150983cd24fb0d6963f7d28e17f72" /\
   MD5.hexdigest
     (Py.encode
        "12345678901234567890123456789012345678901234567890123456789012345678901234567890")
   = "57edf4a22be3c955ac49da2e2107b67a" /\
   url_hash (String "233" EmptyString) = "66ddcd97") /\
  (_get_cache_filename "Test Word" "a.mp4" = "test_word_2a1f2880.mp4" /\
   _get_cache_filename "Test Word" "b.mp4" = "test_word_3cf62b9b.mp4") /\
  (_get_cache_filename word u1 = _get_cache_filename word u2 <-> url_hash u1 = url_hash u2) /\
  (url_hash u1 <> url_hash u2 -> _get_cache_filename word u1 <> _get_cache_filename word u2) /\
  (forall cache_dir E force w p w',
     download_video cache_dir E word u1 force w = (Ret (Some p), w') ->
     p = _get_cache_path cache_dir word u1 /\
     is_Some (files w' !! _get_cache_filename word u1)).
Proof.
  split; [reflexivity|].
  split.
  { split; [apply safe_word_char|].
    split; [rewrite safe_word_char; apply str_map_length|].
    split; [apply safe_word_lowered|]. split; [apply safe_word_folded | reflexivity]. }
  split.
  { split; [reflexivity|]. split; [apply url_hash_length|]. split; [apply url_hash_hex|].
    split; [apply encode_inj|]. repeat split; vm_compute; reflexivity. }
  split; [split; vm_compute; reflexivity|].
  split; [apply cache_filename_inj|].
  split; [intros Hne Heq; apply Hne; now apply cache_filename_inj in Heq|].
  intros cache_dir E force w p w' H. apply download_video_cases in H.
  destruct H as (_ & [(Hs & _ & Hr & Hfs & _) | [(_ & _ & Hr & _) |
                       (_ & _ & [[Hr Hs] | [[Hr _] | Hr]])]]);
    try discriminate; injection Hr as ->; split; try reflexivity; [|exact Hs].
  now rewrite Hfs.
Qed.

(** ** Glob patterns: lemmas *)

Lemma plain_cons (c : ascii) (s : string) :
  plain (String c s) = true ->
  Ascii.eqb c "*" = false /\ Ascii.eqb c "?" = false /\ Ascii.eqb c "[" = false /\
  plain s = true.
Proof.
  unfold plain. cbn [all_chars]. unfold plain_char at 1.
  destruct (Ascii.eqb c "*"), (Ascii.eqb c "?"), (Ascii.eqb c "["); simpl; try discriminate.
  auto.
Qed.

Lemma tokens_plain (s rest : string) :
  plain s = true -> tokens 0 (s +:+ rest) = lits s ++ tokens 0 rest.
Proof.
  induction s as [|c s IH]; intros Hp; [reflexivity|].
  apply plain_cons in Hp as (H1 & H2 & H3 & Hp).
  rewrite append_cons. cbn [tokens lits]. rewrite H1, H2, H3, IH by exact Hp. reflexivity.
Qed.

Lemma match_lits (s : string) (ts : list token) :
  forall name,
  match_tokens (lits s ++ ts) name = true <->
  exists n, name = s +:+ n /\ match_tokens ts n = true.
Proof.
  induction s as [|c s IH]; intros name.
  - simpl. split; [eauto | intros (n & -> & H); exact H].
  - cbn [lits app match_tokens]. destruct name as [|d name].
    + split; [discriminate | intros (n & H & _); rewrite append_cons in H; discriminate].
    + rewrite andb_true_iff, IH. split.
      * intros (Hc & n & -> & Hn). apply Ascii.eqb_eq in Hc as ->. exists n. now rewrite append_cons.
      * intros (n & H & Hn). rewrite append_cons in H. injection H as -> ->.
        split; [apply Ascii.eqb_refl | eauto].
Qed.

Lemma match_star_unfold (ts : list token) (name : string) :
  match_tokens (TStar :: ts) name =
  match_tokens ts name ||
  match name with
  | EmptyString => false
  | String _ n' => match_tokens (TStar :: ts) n'
  end.
Proof. destruct name; reflexivity. Qed.

Lemma match_star (ts : list token) :
  forall name,
  match_tokens (TStar :: ts) name = true <->
  exists a b, name = a +:+ b /\ match_tokens ts b = true.
Proof.
  induction name as [|c name IH]; rewrite match_star_unfold, orb_true_iff.
  - split.
    + intros [H | H]; [|discriminate]. exists EmptyString, EmptyString. auto.
    + intros (a & b & H & Hb). destruct a; [|rewrite append_cons in H; discriminate].
      rewrite append_nil in H. subst b. auto.
  - rewrite IH. split.
    + intros [H | (a & b & -> & Hb)].
      * exists EmptyString, (String c name). auto.
      * exists (String c a), b. now rewrite append_cons.
    + intros (a & b & H & Hb). destruct a as [|x a].
      * rewrite append_nil in H. subst b. auto.
      * rewrite append_cons in H. injection H as -> ->. right. eauto.
Qed.

Lemma match_nil (name : string) : match_tokens [] name = true <-> name = EmptyString.
Proof. destruct name; simpl; split; congruence. Qed.

Lemma append_empty_r (s : string) : s +:+ EmptyString = s.
Proof. induction s as [|c s IH]; [reflexivity|]. rewrite append_cons. now f_equal. Qed.

(** The names a word-scoped pattern selects, for a safe form without glob
    metacharacters. *)
Lemma fnmatch_word_pattern (s name : string) :
  plain s = true ->
  fnmatch name (s +:+ "_*.mp4") = true <->
  exists mid, name = s +:+ "_" +:+ mid +:+ ".mp4".
Proof.
  intros Hp. unfold fnmatch. rewrite tokens_plain by exact Hp.
  change (tokens 0 "_*.mp4") with (lits "_" ++ TStar :: lits ".mp4" ++ []).
  rewrite match_lits. split.
  - intros (n & -> & Hn). apply match_lits in Hn as (n1 & -> & Hn).
    apply match_star in Hn as (a & b & -> & Hb).
    apply match_lits in Hb as (n2 & -> & Hn2). apply match_nil in Hn2 as ->.
    exists a. now rewrite append_empty_r.
  - intros (mid & ->). eexists. split; [reflexivity|].
    apply match_lits. eexists. split; [reflexivity|].
    apply match_star. exists mid, ".mp4". split; [reflexivity|].
    apply match_lits. exists EmptyString. split; [reflexivity|]. reflexivity.
Qed.

Lemma fnmatch_all_mp4 (name : string) :
  fnmatch name "*.mp4" = true <-> exists mid, name = mid +:+ ".mp4".
Proof.
  unfold fnmatch. change (tokens 0 "*.mp4") with (TStar :: lits ".mp4" ++ []).
  rewrite match_star. split.
  - intros (a & b & -> & Hb). apply match_lits in Hb as (n & -> & Hn).
    apply match_nil in Hn as ->. exists a. now rewrite append_empty_r.
  - intros (mid & ->). exists mid, ".mp4". split; [reflexivity|].
    apply match_lits. exists EmptyString. split; reflexivity.
Qed.

Lemma prefix_append (a b : string) :
  String.prefix a b = true -> exists t, b = a +:+ t.
Proof.
  revert b. induction a as [|x a IH]; intros b H.
  - exists b. reflexivity.
  - destruct b as [|y b]; [discriminate|]. simpl in H.
    destruct (ascii_dec x y) as [->|]; [|discriminate].
    destruct (IH b H) as (t & ->). exists t. now rewrite append_cons.
Qed.

Lemma map_fst_fmap {A B} (l : list (A * B)) : map fst l = l.*1.
Proof. induction l as [|x l IH]; [reflexivity|]. simpl. now f_equal. Qed.

Lemma elem_of_scandir (w : world) (name : string) :
  name ∈ scandir w <-> is_Some (files w !! name) /\ no_sep name = true.
Proof.
  unfold scandir. rewrite list_elem_of_filter, map_fst_fmap, list_elem_of_fmap. split.
  - intros (Hm & [k f] & -> & Hin). apply elem_of_map_to_list in Hin. simpl. eauto.
  - intros ([f Hf] & Hm). split; [exact Hm|]. exists (name, f). split; [reflexivity|].
    now apply elem_of_map_to_list.
Qed.

Lemma elem_of_glob (pat : string) (w : world) (name : string) :
  name ∈ glob pat w <->
  is_Some (files w !! name) /\ no_sep name = true /\ fnmatch name pat = true.
Proof. unfold glob. rewrite list_elem_of_filter, elem_of_scandir. tauto. Qed.

Lemma NoDup_glob (pat : string) (w : world) : NoDup (glob pat w).
Proof.
  unfold glob, scandir. apply NoDup_filter, NoDup_filter. rewrite map_fst_fmap.
  apply NoDup_fst_map_to_list.
Qed.

Lemma all_chars_impl (p q : ascii -> bool) (s : string) :
  (forall c, p c = true -> q c = true) -> all_chars p s = true -> all_chars q s = true.
Proof.
  intros Hpq. induction s as [|c s IH]; [reflexivity|]. cbn [all_chars].
  rewrite !andb_true_iff. intros [Hc Hs]. auto.
Qed.

Lemma all_chars_app (p : ascii -> bool) (a b : string) :
  all_chars p (a +:+ b) = all_chars p a && all_chars p b.
Proof.
  induction a as [|c a IH]; [reflexivity|]. rewrite append_cons. cbn [all_chars].
  now rewrite IH, andb_assoc.
Qed.

(** The name of a cache file holds a separator only if the safe form of its
    word does. *)
Lemma cache_filename_no_sep (word u : string) :
  no_sep (_get_cache_filename word u) = no_sep (safe_word word).
Proof.
  unfold _get_cache_filename, no_sep. rewrite !all_chars_app.
  rewrite (all_chars_impl is_hex _ (url_hash u)); [| |apply url_hash_hex].
  - cbn. now rewrite !andb_true_r.
  - intros c Hc. unfold is_hex in Hc. cbn in Hc.
    destruct (Ascii.eqb_spec c "/") as [->|]; [discriminate | reflexivity].
Qed.

(** A pattern without character class matches the text it is written
    with: a star and a question mark match themselves. *)
Lemma classless_cons (c : ascii) (s : string) :
  classless (String c s) = true ->
  tokens 0 (String c s)
  = (if Ascii.eqb c "*" then TStar else if Ascii.eqb c "?" then TAny else TLit c)
      :: tokens 0 s /\
  classless s = true.
Proof.
  unfold classless. cbn [tokens].
  destruct (Ascii.eqb c "*"); [cbn [forallb]; auto|].
  destruct (Ascii.eqb c "?"); [cbn [forallb]; auto|].
  destruct (Ascii.eqb c "[").
  - destruct (class_text s) as [[text rest]|]; [|cbn [forallb]; auto].
    unfold class_token. destruct text as [|x text]; [discriminate|].
    destruct x as [[] [] [] [] [] [] [] []]; discriminate.
  - cbn [forallb]. auto.
Qed.

Lemma classless_match (s rest name : string) :
  classless (s +:+ rest) = true ->
  match_tokens (tokens 0 rest) name = true ->
  match_tokens (tokens 0 (s +:+ rest)) (s +:+ name) = true.
Proof.
  intros Hc Hm. induction s as [|c s IH]; [exact Hm|].
  rewrite !append_cons in *. apply classless_cons in Hc as [-> Hc]. specialize (IH Hc).
  destruct (Ascii.eqb c "*").
  - rewrite match_star_unfold, (match_star_unfold _ (s +:+ name)), IH.
    now rewrite orb_true_r.
  - destruct (Ascii.eqb c "?"); cbn [match_tokens]; [exact IH|].
    now rewrite Ascii.eqb_refl, IH.
Qed.

(** ** The cache store *)

Section CacheStoreFacts.

Variable cache_dir : string.

Lemma errors_snoc (l : list log_record) (r : log_record) :
  errors (l ++ [r]) = (errors l + (if is_error r then 1 else 0))%nat.
Proof.
  unfold errors. rewrite List.filter_app, length_app. simpl.
  destruct (is_error r); reflexivity.
Qed.

Lemma size_delete_present (name : string) (m : gmap string file) (f : file) :
  m !! name = Some f -> S (size (delete name m)) = size m.
Proof.
  intros H. rewrite <- (map_size_insert_None name f) by apply lookup_delete_eq.
  now rewrite insert_delete_eq, insert_id.
Qed.

(** One turn of the loop of [clear_cache]. *)
Lemma clear_step (name : string) (count : Z) (w : world) :
  exists w1,
    try_except
      (unlink name >>
       logger (INFO ("Deleted cached video: " +:+ path_str cache_dir name)) >>
       ret (count + 1))
      (fun _ => true)
      (fun e =>
         logger (ERROR ("Error deleting " +:+ path_str cache_dir name +:+ ": ") e) >>
         ret count) w
    = (Ret (if deletable w name then count + 1 else count), w1) /\
    requests w1 = requests w /\
    files w1 = (if deletable w name then delete name (files w) else files w) /\
    errors (log w1) = (errors (log w) + (if deletable w name then 0 else 1))%nat /\
    (size (files w1) + (if deletable w name then 1 else 0))%nat = size (files w).
Proof.
  unfold try_except, bind, unlink, logger, set_files, ret, deletable.
  destruct (files w !! name) as [f|] eqn:Hf; [destruct (removable f)|];
    eexists; (split; [reflexivity|]); simpl; rewrite errors_snoc; repeat split; auto.
  rewrite <- (size_delete_present name (files w) f Hf). lia.
Qed.

Lemma deletable_frame (w w1 : world) (name other : string) :
  files w1 = (if deletable w name then delete name (files w) else files w) ->
  other <> name -> deletable w1 other = deletable w other.
Proof.
  intros Hf Hne. unfold deletable at 1 2. rewrite Hf.
  destruct (deletable w name); [|reflexivity]. now rewrite lookup_delete_ne by congruence.
Qed.

Lemma clear_loop_spec (targets : list string) :
  NoDup targets ->
  forall (count : Z) (w : world),
  exists w',
    clear_loop cache_dir targets count w
    = (Ret (count + Z.of_nat (length (List.filter (deletable w) targets))), w') /\
    requests w' = requests w /\
    (forall name, files w' !! name = after_clear w targets name) /\
    errors (log w')
    = (errors (log w) + length (List.filter (fun n => negb (deletable w n)) targets))%nat /\
    (size (files w') + length (List.filter (deletable w) targets))%nat = size (files w).
Proof.
  induction 1 as [|name rest Hnot Hnd IH]; intros count w.
  - exists w. simpl. rewrite Z.add_0_r. repeat split; auto.
  - cbn [clear_loop]. unfold bind at 1.
    destruct (clear_step name count w) as (w1 & -> & Hreq & Hfs & Herr & Hsz).
    destruct (IH (if deletable w name then count + 1 else count) w1)
      as (w' & -> & Hreq' & Hfs' & Herr' & Hsz').
    assert (Hsame : forall n, In n rest -> deletable w1 n = deletable w n).
    { intros n Hin. apply (deletable_frame w w1 name n Hfs).
      intros ->. apply Hnot. now apply list_elem_of_In. }
    rewrite (List.filter_ext_in _ _ _ Hsame) in Hsz'.
    exists w'. split; [|split; [congruence|split; [|split]]].
    + f_equal. f_equal. rewrite (List.filter_ext_in _ _ _ Hsame).
      cbn [List.filter]. destruct (deletable w name); cbn [length]; lia.
    + intros x. rewrite Hfs'. unfold after_clear.
      destruct (decide (x = name)) as [->|Hne].
      * rewrite (bool_decide_eq_false_2 (name ∈ rest)) by exact Hnot.
        rewrite (bool_decide_eq_true_2 (name ∈ name :: rest)) by apply list_elem_of_here.
        simpl. rewrite Hfs. destruct (deletable w name) eqn:Hd; [|reflexivity].
        apply lookup_delete_eq.
      * rewrite (deletable_frame w w1 name x Hfs Hne).
        assert (Hfx : files w1 !! x = files w !! x).
        { rewrite Hfs. destruct (deletable w name); [|reflexivity].
          now rewrite lookup_delete_ne by congruence. }
        rewrite Hfx.
        assert (Hin : bool_decide (x ∈ name :: rest) = bool_decide (x ∈ rest)).
        { apply bool_decide_ext. rewrite elem_of_cons. tauto. }
        now rewrite Hin.
    + rewrite Herr', Herr.
      rewrite (List.filter_ext_in (fun n => negb (deletable w1 n))
                 (fun n => negb (deletable w n)) rest)
        by (intros n Hin; now rewrite Hsame).
      cbn [List.filter]. destruct (deletable w name); cbn [negb length]; lia.
    + cbn [List.filter]. destruct (deletable w name); cbn [length]; lia.
Qed.

Lemma files_to_delete_run (word : option string) (w : world) :
  files_to_delete word w = Path_glob (clear_pattern word) w.
Proof. destruct word as [wd|]; [|reflexivity]. simpl. now destruct (Py.truthy wd). Qed.

(** What a run of [clear_cache] returns and leaves, for a pattern that
    [glob] takes. *)
Lemma clear_cache_run (word : option string) (w : world) :
  glob_error (clear_pattern word) = None ->
  exists w',
    clear_cache cache_dir word w
    = (Ret (Z.of_nat (length (List.filter (deletable w) (glob (clear_pattern word) w)))), w') /\
    requests w' = requests w /\
    (forall name, files w' !! name = after_clear w (glob (clear_pattern word) w) name) /\
    errors (log w')
    = (errors (log w)
       + length (List.filter (fun n => negb (deletable w n)) (glob (clear_pattern word) w)))%nat /\
    (size (files w') + length (List.filter (deletable w) (glob (clear_pattern word) w)))%nat
    = size (files w).
Proof.
  intros Hpat. unfold clear_cache, bind at 1. rewrite files_to_delete_run.
  unfold Path_glob. rewrite Hpat. unfold bind at 1.
  destruct (clear_loop_spec (glob (clear_pattern word) w)) with (count := 0) (w := w)
    as (w1 & -> & Hreq & Hfs & Herr & Hsz).
  { apply NoDup_glob. }
  unfold bind, logger, ret. eexists. split; [reflexivity|]. simpl.
  split; [exact Hreq|]. split; [exact Hfs|]. split; [|exact Hsz].
  rewrite errors_snoc. simpl. lia.
Qed.

(** A pattern that [glob] refuses: the error leaves [clear_cache], which has
    not touched a file. *)
Lemma clear_cache_refused (word : option string) (w : world) (e : exn) :
  glob_error (clear_pattern word) = Some e ->
  clear_cache cache_dir word w = (Raise e, w).
Proof.
  intros Hpat. unfold clear_cache, bind at 1. rewrite files_to_delete_run.
  unfold Path_glob. now rewrite Hpat.
Qed.

Lemma get_cached_videos_run (word : string) (w : world) :
  get_cached_videos cache_dir word w
  = match glob_error (word_pattern word) with
    | Some e => (Raise e, w)
    | None => (Ret (map (path_str cache_dir) (glob (word_pattern word) w)), w)
    end.
Proof.
  unfold get_cached_videos, bind, Path_glob.
  destruct (glob_error (word_pattern word)); reflexivity.
Qed.

Lemma cache_filename_prefixed (w1 w2 u : string) :
  String.prefix (safe_word w1 +:+ "_") (safe_word w2) = true ->
  exists mid, _get_cache_filename w2 u = safe_word w1 +:+ "_" +:+ mid +:+ ".mp4".
Proof.
  intros H. apply prefix_append in H as (t & Ht). unfold _get_cache_filename. rewrite Ht.
  exists (t +:+ "_" +:+ url_hash u). now rewrite !append_assoc.
Qed.

Lemma cache_filename_mp4 (word u : string) :
  exists mid, _get_cache_filename word u = mid +:+ ".mp4".
Proof.
  exists (safe_word word +:+ "_" +:+ url_hash u). unfold _get_cache_filename.
  now rewrite !append_assoc.
Qed.

(** The pattern of a word without character class matches the names that
    begin with its safe form and an underscore and end with [.mp4]. *)
Lemma fnmatch_classless_pattern (s mid : string) :
  classless (s +:+ "_*.mp4") = true ->
  fnmatch (s +:+ "_" +:+ mid +:+ ".mp4") (s +:+ "_*.mp4") = true.
Proof.
  intros Hc. unfold fnmatch. apply classless_match; [exact Hc|].
  apply (fnmatch_word_pattern EmptyString); [reflexivity|]. now exists mid.
Qed.

(** C10, as amended.  The word-scoped operations select by the pattern
    [{safe_word}_*.mp4] alone.  When the pattern of [w1] opens no character
    class and is one that [glob] takes (no doubled star), the safe form of
    [w2] holds no path separator and begins with the safe form of [w1] and
    an underscore, a cached file of [w2] is listed by [get_cached_videos w1]
    and is among the files [clear_cache w1] goes through: [clear_cache]
    deletes it when it can be unlinked, and keeps it otherwise. *)
Theorem word_glob_includes_longer_word (w1 w2 u : string) (w : world) (f : file) :
  classless (word_pattern w1) = true ->
  glob_error (word_pattern w1) = None ->
  no_sep (safe_word w2) = true ->
  String.prefix (safe_word w1 +:+ "_") (safe_word w2) = true ->
  files w !! _get_cache_filename w2 u = Some f ->
  (exists paths,
     get_cached_videos cache_dir w1 w = (Ret paths, w) /\
     paths = map (path_str cache_dir) (glob (safe_word w1 +:+ "_*.mp4") w) /\
     _get_cache_path cache_dir w2 u ∈ paths) /\
  _get_cache_filename w2 u ∈ glob (clear_pattern (Some w1)) w /\
  (exists n w',
     clear_cache cache_dir (Some w1) w = (Ret n, w') /\
     (removable f = true -> files w' !! _get_cache_filename w2 u = None) /\
     (removable f = false -> files w' !! _get_cache_filename w2 u = Some f)).
Proof.
  intros Hc Hpat Hsep Hpre Hf.
  assert (Hentry : no_sep (_get_cache_filename w2 u) = true)
    by now rewrite cache_filename_no_sep.
  assert (Hglob : _get_cache_filename w2 u ∈ glob (word_pattern w1) w).
  { apply elem_of_glob. split; [rewrite Hf; eauto|]. split; [exact Hentry|].
    destruct (cache_filename_prefixed w1 w2 u Hpre) as (mid & ->).
    now apply fnmatch_classless_pattern. }
  assert (Hdel : _get_cache_filename w2 u ∈ glob (clear_pattern (Some w1)) w).
  { simpl. destruct (Py.truthy w1); [exact Hglob|].
    apply elem_of_glob. split; [rewrite Hf; eauto|]. split; [exact Hentry|].
    apply fnmatch_all_mp4. apply cache_filename_mp4. }
  split; [|split; [exact Hdel|]].
  - eexists. rewrite get_cached_videos_run, Hpat. split; [reflexivity|].
    split; [reflexivity|].
    unfold _get_cache_path. apply list_elem_of_In, in_map. now apply list_elem_of_In.
  - destruct (clear_cache_run (Some w1) w) as (w' & Hrun & _ & Hfs & _).
    { simpl. destruct (Py.truthy w1); [exact Hpat | reflexivity]. }
    eexists. exists w'. split; [exact Hrun|].
    rewrite Hfs. unfold after_clear, deletable.
    rewrite bool_decide_eq_true_2 by exact Hdel. rewrite Hf.
    split; intros ->; reflexivity.
Qed.

End CacheStoreFacts.

(** C8.  The code at the failing input: the cache holds one file for
    [hello] and one for [world], and [clear_cache] is called with the word
    [*].  The word goes into the pattern as it is: the pattern is
    [*_*.mp4], both files match and both are deleted, although neither is a
    file of that word.  With the word [hello] the same cache loses the file
    of [hello] alone. *)
Lemma clear_cache_star_scope :
  files hello_world_cache !! "hello_e4774cdd.mp4" = Some (File [1; 2; 3] true) /\
  files hello_world_cache !! "world_270c1b08.mp4" = Some (File [1; 2; 3] true) /\
  String.prefix (safe_word "*" +:+ "_") "hello_e4774cdd.mp4" = false /\
  String.prefix (safe_word "*" +:+ "_") "world_270c1b08.mp4" = false /\
  fst (clear_cache "cache" (Some "*") hello_world_cache) = Ret 2 /\
  files (snd (clear_cache "cache" (Some "*") hello_world_cache)) = ∅ /\
  fst (clear_cache "cache" (Some "hello") hello_world_cache) = Ret 1 /\
  files (snd (clear_cache "cache" (Some "hello") hello_world_cache)) !! "hello_e4774cdd.mp4"
  = None /\
  files (snd (clear_cache "cache" (Some "hello") hello_world_cache)) !! "world_270c1b08.mp4"
  = Some (File [1; 2; 3] true).
Proof. repeat split; vm_compute; reflexivity. Qed.

Lemma word_glob_includes_longer_word_witness :
  (exists paths,
     get_cached_videos "cache" "hello" hello_world_word_cache
     = (Ret paths, hello_world_word_cache) /\
     paths = map (path_str "cache")
               (glob (safe_word "hello" +:+ "_*.mp4") hello_world_word_cache) /\
     _get_cache_path "cache" "hello world" "u" ∈ paths) /\
  _get_cache_filename "hello world" "u"
    ∈ glob (clear_pattern (Some "hello")) hello_world_word_cache /\
  (exists n w',
     clear_cache "cache" (Some "hello") hello_world_word_cache = (Ret n, w') /\
     (removable (File [1; 2; 3] true) = true ->
      files w' !! _get_cache_filename "hello world" "u" = None) /\
     (removable (File [1; 2; 3] true) = false ->
      files w' !! _get_cache_filename "hello world" "u" = Some (File [1; 2; 3] true))).
Proof.
  apply (word_glob_includes_longer_word "cache" "hello" "hello world" "u"
           hello_world_word_cache (File [1; 2; 3] true)); reflexivity.
Defined.

(** C10 fails as stated, in four ways.  The safe form [[a]] followed by an
    underscore is a prefix of the safe form [[a]_b], and the pattern
    [[a]_*.mp4], in which the brackets make a character class, does not
    match the file cached for [[a] b].  The safe form [a**] is a prefix of
    [a**_b] in the same way, and [glob] refuses the pattern [a**_*.mp4] with
    a [ValueError]: listing and clearing raise.  The safe form [hello] is a
    prefix of [hello_x/y] in the same way, and the file cached for
    [hello x/y] is not an entry of the cache directory: the pattern
    [hello_*.mp4] does not reach it.  And a file of the longer word that
    cannot be unlinked is not deleted. *)
Lemma word_glob_bracket_counterexample :
  (String.prefix (safe_word "[a]" +:+ "_") (safe_word "[a] b") = true /\
   files bracket_cache !! _get_cache_filename "[a] b" "u" = Some (File [1; 2; 3] true) /\
   fst (get_cached_videos "cache" "[a]" bracket_cache) = Ret [] /\
   fst (clear_cache "cache" (Some "[a]") bracket_cache) = Ret 0 /\
   files (snd (clear_cache "cache" (Some "[a]") bracket_cache))
     !! _get_cache_filename "[a] b" "u" = Some (File [1; 2; 3] true)) /\
  (String.prefix (safe_word "a**" +:+ "_") (safe_word "a** b") = true /\
   files star_cache !! _get_cache_filename "a** b" "u" = Some (File [1; 2; 3] true) /\
   fst (get_cached_videos "cache" "a**" star_cache) = Raise ValueError /\
   fst (clear_cache "cache" (Some "a**") star_cache) = Raise ValueError /\
   files (snd (clear_cache "cache" (Some "a**") star_cache))
     !! _get_cache_filename "a** b" "u" = Some (File [1; 2; 3] true)) /\
  (String.prefix (safe_word "hello" +:+ "_") (safe_word "hello x/y") = true /\
   _get_cache_filename "hello x/y" "u" = "hello_x/y_7b774eff.mp4" /\
   files slash_cache !! _get_cache_filename "hello x/y" "u" = Some (File [1; 2; 3] true) /\
   fst (get_cached_videos "cache" "hello" slash_cache) = Ret [] /\
   fst (clear_cache "cache" (Some "hello") slash_cache) = Ret 0 /\
   files (snd (clear_cache "cache" (Some "hello") slash_cache))
     !! _get_cache_filename "hello x/y" "u" = Some (File [1; 2; 3] true)) /\
  (files locked_longer_cache !! _get_cache_filename "hello world" "u"
   = Some (File [1; 2; 3] false) /\
   fst (clear_cache "cache" (Some "hello") locked_longer_cache) = Ret 0 /\
   files (snd (clear_cache "cache" (Some "hello") locked_longer_cache))
     !! _get_cache_filename "hello world" "u" = Some (File [1; 2; 3] false)).
Proof. repeat split; vm_compute; reflexivity. Qed.

Example get_cached_videos_hello :
  fst (get_cached_videos "cache" "hello" hello_world_word_cache)
  = Ret ["cache/hello_world_7b774eff.mp4"].
Proof. vm_compute. reflexivity. Qed.

Example clear_cache_skips_failure :
  fst (clear_cache "cache" (Some "hello") locked_cache) = Ret 1 /\
  files (snd (clear_cache "cache" (Some "hello") locked_cache)) !! "hello_aaaaaaaa.mp4"
  = Some (File [1] false) /\
  files (snd (clear_cache "cache" (Some "hello") locked_cache)) !! "hello_bbbbbbbb.mp4"
  = None /\
  errors (log (snd (clear_cache "cache" (Some "hello") locked_cache))) = 1%nat.
Proof. repeat split; vm_compute; reflexivity. Qed.

(** ** Normalization *)

Lemma lower_char_idem (c : ascii) : Py.lower_char (Py.lower_char c) = Py.lower_char c.
Proof. destruct c as [[] [] [] [] [] [] [] []]; reflexivity. Qed.

Lemma lower_idem (s : string) : Py.lower (Py.lower s) = Py.lower s.
Proof.
  unfold Py.lower. rewrite str_map_compose. apply str_map_ext, lower_char_idem.
Qed.

Lemma lower_replace_space (s : string) :
  Py.lower (Py.replace " " "-" s) = Py.replace " " "-" (Py.lower s).
Proof.
  unfold Py.lower, Py.replace. rewrite !str_map_compose. apply str_map_ext. intros c.
  destruct c as [[] [] [] [] [] [] [] []]; reflexivity.
Qed.

Lemma replace_space_idem (s : string) :
  Py.replace " " "-" (Py.replace " " "-" s) = Py.replace " " "-" s.
Proof.
  unfold Py.replace. rewrite str_map_compose. apply str_map_ext. intros c.
  destruct (Ascii.eqb_spec c " ") as [->|Hne]; [reflexivity|].
  now rewrite (proj2 (Ascii.eqb_neq _ _) Hne).
Qed.

Lemma replace_space_char (c : ascii) :
  Py.isspace c = false -> (if Ascii.eqb c " " then "-"%char else c) = c.
Proof. destruct (Ascii.eqb_spec c " ") as [->|]; [discriminate | reflexivity]. Qed.

Lemma lstrip_length (s : string) : (String.length (Py.lstrip s) <= String.length s)%nat.
Proof.
  induction s as [|c s IH]; simpl; [lia|]. destruct (Py.isspace c); simpl; lia.
Qed.

(** A string that [lstrip] leaves alone does not start with white space. *)
Lemma lstrip_fixed (c : ascii) (s : string) :
  Py.lstrip (String c s) = String c s -> Py.isspace c = false.
Proof.
  simpl. destruct (Py.isspace c); [|reflexivity]. intros H.
  pose proof (lstrip_length s) as Hl. rewrite H in Hl. simpl in Hl. lia.
Qed.

Lemma rstrip_head (c : ascii) (s : string) :
  Py.isspace c = false -> exists r, Py.rstrip (String c s) = String c r.
Proof.
  intros Hc. simpl. destruct (Py.rstrip s); [rewrite Hc|]; eauto.
Qed.

Lemma lstrip_lstrip (s : string) : Py.lstrip (Py.lstrip s) = Py.lstrip s.
Proof.
  induction s as [|c s IH]; [reflexivity|]. simpl.
  destruct (Py.isspace c) eqn:Hc; [exact IH|]. simpl. now rewrite Hc.
Qed.

Lemma rstrip_rstrip (s : string) : Py.rstrip (Py.rstrip s) = Py.rstrip s.
Proof.
  induction s as [|c s IH]; [reflexivity|]. simpl.
  destruct (Py.rstrip s) as [|d r] eqn:Hr.
  - destruct (Py.isspace c) eqn:Hc; [reflexivity|]. simpl. now rewrite Hc.
  - simpl. simpl in IH. rewrite IH. reflexivity.
Qed.

(** What [strip] returns neither starts nor ends with white space. *)
Lemma strip_fixed (s : string) :
  Py.lstrip (Py.strip s) = Py.strip s /\ Py.rstrip (Py.strip s) = Py.strip s.
Proof.
  unfold Py.strip. split; [|apply rstrip_rstrip].
  pose proof (lstrip_lstrip s) as Hl. destruct (Py.lstrip s) as [|c r]; [reflexivity|].
  apply lstrip_fixed in Hl. destruct (rstrip_head c r Hl) as (r' & ->).
  simpl. now rewrite Hl.
Qed.

Lemma lstrip_replace_space (s : string) :
  Py.lstrip s = s -> Py.lstrip (Py.replace " " "-" s) = Py.replace " " "-" s.
Proof.
  destruct s as [|c s]; [reflexivity|]. intros H. apply lstrip_fixed in H.
  unfold Py.replace. cbn [Py.str_map Py.lstrip]. rewrite (replace_space_char c H), H.
  reflexivity.
Qed.

Lemma rstrip_replace_space (s : string) :
  Py.rstrip s = s -> Py.rstrip (Py.replace " " "-" s) = Py.replace " " "-" s.
Proof.
  unfold Py.replace. induction s as [|c s IH]; [reflexivity|].
  cbn [Py.str_map Py.rstrip]. destruct (Py.rstrip s) as [|d r] eqn:Hr.
  - destruct (Py.isspace c) eqn:Hc; [discriminate|]. intros H. injection H as <-.
    simpl. now rewrite (replace_space_char c Hc), Hc.
  - intros H. injection H as H. rewrite IH by exact H. rewrite <- H. reflexivity.
Qed.

Lemma strip_replace_space (s : string) :
  Py.strip (Py.replace " " "-" (Py.strip s)) = Py.replace " " "-" (Py.strip s).
Proof.
  destruct (strip_fixed s) as [Hl Hr]. unfold Py.strip at 1.
  rewrite lstrip_replace_space by exact Hl. now apply rstrip_replace_space.
Qed.

Lemma replace_space_free (s : string) :
  all_chars (fun c => negb (Ascii.eqb c " ")) (Py.replace " " "-" s) = true.
Proof.
  unfold Py.replace. apply all_chars_str_map. intros c.
  destruct (Ascii.eqb_spec c " ") as [->|Hne]; [reflexivity|].
  now rewrite (proj2 (Ascii.eqb_neq _ _) Hne).
Qed.

(** X1.  [_normalize_word] is idempotent; what it returns is in lower case,
    neither starts nor ends with white space, and holds no space. *)
Theorem normalize_word_idempotent (word : string) :
  _normalize_word (_normalize_word word) = _normalize_word word /\
  Py.lower (_normalize_word word) = _normalize_word word /\
  Py.strip (_normalize_word word) = _normalize_word word /\
  all_chars (fun c => negb (Ascii.eqb c " ")) (_normalize_word word) = true.
Proof.
  assert (Hlow : Py.lower (_normalize_word word) = _normalize_word word).
  { unfold _normalize_word. now rewrite lower_replace_space, <- strip_lower, lower_idem. }
  assert (Hstrip : Py.strip (_normalize_word word) = _normalize_word word).
  { unfold _normalize_word. apply strip_replace_space. }
  split; [|split; [exact Hlow|split; [exact Hstrip|apply replace_space_free]]].
  unfold _normalize_word at 1. rewrite Hlow, Hstrip.
  unfold _normalize_word. apply replace_space_idem.
Qed.

(** ** The scraper: requests and results *)

Lemma fetch_page_effects (E : env) (word : string) (w : world) :
  requests (snd (_fetch_page E word w)) = requests w ++ [BASE_URL (_normalize_word word)] /\
  files (snd (_fetch_page E word w)) = files w.
Proof.
  unfold _fetch_page, try_except, bind, logger, session_get, raise_for_status. simpl.
  destruct (site E _ _) as [|status body]; simpl; [auto|].
  destruct ((400 <=? status) && (status <? 600)); simpl.
  - destruct (status =? 404); simpl; auto.
  - destruct body; simpl; auto.
Qed.

Lemma extract_urls_mp4 (doc : document) :
  Forall (fun u => Py.endswith u ".mp4" = true) (extract_urls doc).
Proof.
  rewrite extract_urls_omap. induction (find_all doc "source") as [|n l IH]; [constructor|].
  cbn [omap list_omap]. destruct (mp4_src n) as [u|] eqn:Hn; [|exact IH].
  constructor; [|exact IH]. unfold mp4_src in Hn. destruct (get n "src") as [src|]; [|discriminate].
  destruct (Py.endswith src ".mp4") eqn:He; [|discriminate]. now injection Hn as <-.
Qed.

Lemma head_omap {A B} (f : A -> option B) (l : list A) (b : B) :
  head (omap f l) = Some b ->
  exists pre a post, l = pre ++ a :: post /\ f a = Some b /\ Forall (fun x => f x = None) pre.
Proof.
  induction l as [|a l IH]; [discriminate|]. cbn [omap list_omap].
  destruct (f a) as [b'|] eqn:Hf.
  - intros H. injection H as ->. exists [], a, l. auto.
  - intros H. destruct (IH H) as (pre & x & post & -> & Hx & Hpre).
    exists (a :: pre), x, post. auto.
Qed.

Lemma node_induction (P : node -> Prop) :
  (forall s, P (Text s)) ->
  (forall t attrs children, Forall P children -> P (Tag t attrs children)) ->
  forall n, P n.
Proof.
  intros Htext Htag. fix IH 1. intros [t attrs children | s]; [|apply Htext].
  apply Htag. induction children as [|c cs IHcs]; constructor; [apply IH | exact IHcs].
Qed.

Lemma elem_of_flat_map {A B} (f : A -> list B) (l : list A) (b : B) :
  b ∈ flat_map f l <-> exists a, a ∈ l /\ b ∈ f a.
Proof.
  rewrite list_elem_of_In, in_flat_map. split; intros (a & Ha & Hb); exists a;
    split; try (now apply list_elem_of_In).
Qed.

(** A tag found below a tag of the document is found in the document. *)
Lemma below_found_node (name1 name2 : string) (n v s : node) :
  v ∈ find_all_node name1 n -> s ∈ below v name2 -> s ∈ find_all_node name2 n.
Proof.
  revert v s. induction n as [txt | t attrs children IH] using node_induction; intros v s Hv Hs.
  - simpl in Hv. now apply elem_of_nil in Hv.
  - cbn [find_all_node] in *. apply elem_of_app in Hv as [Hv | Hv].
    + destruct (String.eqb t name1); [|now apply elem_of_nil in Hv].
      apply list_elem_of_singleton in Hv as ->. apply elem_of_app. right. exact Hs.
    + apply elem_of_app. right. apply elem_of_flat_map in Hv as (c & Hc & Hv).
      apply elem_of_flat_map. exists c. split; [exact Hc|].
      rewrite Forall_forall in IH. exact (IH c Hc v s Hv Hs).
Qed.

Lemma below_found (doc : document) (name1 name2 : string) (v s : node) :
  v ∈ find_all doc name1 -> s ∈ below v name2 -> s ∈ find_all doc name2.
Proof.
  unfold find_all. intros Hv Hs. apply elem_of_flat_map in Hv as (c & Hc & Hv).
  apply elem_of_flat_map. exists c. split; [exact Hc|]. exact (below_found_node _ _ c v s Hv Hs).
Qed.

Lemma collect_details_omap (videos : list node) (acc : list video_info) :
  collect_details videos acc = acc ++ omap detail_of videos.
Proof.
  revert acc. induction videos as [|v rest IH]; intros acc; simpl.
  - now rewrite app_nil_r.
  - unfold detail_of. destruct (find v "source") as [source|]; rewrite IH; [|reflexivity].
    now rewrite <- app_assoc.
Qed.

Lemma extract_details_omap (doc : document) :
  extract_details doc = omap detail_of (find_all doc "video").
Proof. unfold extract_details. now rewrite collect_details_omap. Qed.

Lemma find_below (v : node) (name : string) (s : node) :
  find v name = Some s -> s ∈ below v name.
Proof.
  destruct v as [t attrs children|txt]; [|discriminate]. simpl.
  destruct (find_all children name) as [|x l]; [discriminate|].
  intros H. injection H as ->. apply list_elem_of_here.
Qed.

Lemma omap_length_le {A B} (f : A -> option B) (l : list A) :
  (length (omap f l) <= length l)%nat.
Proof.
  induction l as [|a l IH]; [reflexivity|]. cbn [omap list_omap].
  destruct (f a); simpl; lia.
Qed.

Lemma get_video_details_outcome (E : env) (word : string) (w : world) :
  fst (get_video_details E word w) =
  match fst (_fetch_page E word w) with
  | Ret (Some doc) => Ret (extract_details doc)
  | Ret None => Ret []
  | Raise e => Raise e
  end.
Proof.
  unfold get_video_details, bind.
  destruct (_fetch_page E word w) as [[[doc|]|e] w1]; reflexivity.
Qed.

(** X5.  [get_video_details] gives one entry for each [video] tag that has a
    [source] tag below it, in the order of the [video] tags, so at most as
    many entries as [video] tags; an entry whose URL ends with [.mp4] carries
    a URL that [get_video_urls] lists for the same document.  On a page that
    is not found it returns the empty list. *)
Theorem get_video_details_spec (E : env) (word : string) (w : world) (doc : document) :
  extract_details doc = omap detail_of (find_all doc "video") /\
  (length (extract_details doc) <= length (find_all doc "video"))%nat /\
  (forall d, d ∈ extract_details doc -> Py.endswith (info_url d) ".mp4" = true ->
     info_url d ∈ extract_urls doc) /\
  (fst (_fetch_page E word w) = Ret (Some doc) ->
   fst (get_video_details E word w) = Ret (extract_details doc)) /\
  (fst (_fetch_page E word w) = Ret None -> fst (get_video_details E word w) = Ret []).
Proof.
  split; [apply extract_details_omap|].
  split; [rewrite extract_details_omap; apply omap_length_le|].
  split; [|split; intros H; now rewrite get_video_details_outcome, H].
  intros d Hd He. rewrite extract_details_omap in Hd.
  apply list_elem_of_omap in Hd as (v & Hv & Hdv). unfold detail_of in Hdv.
  destruct (find v "source") as [source|] eqn:Hf; [|discriminate].
  injection Hdv as <-. cbn [info_url] in *.
  rewrite extract_urls_omap. apply list_elem_of_omap. exists source. split.
  - apply (below_found doc "video" "source" v); [exact Hv | now apply find_below].
  - unfold mp4_src, get_or in *. destruct (get source "src") as [src|]; [|discriminate].
    now rewrite He.
Qed.

Lemma word_exists_effects (E : env) (word : string) (w : world) :
  requests (snd (word_exists E word w)) = requests w ++ [page_url word] /\
  files (snd (word_exists E word w)) = files w.
Proof.
  pose proof (fetch_page_effects E word w) as H.
  unfold word_exists, try_except, bind, logger, ret.
  destruct (_fetch_page E word w) as [[[doc|]|e] w1]; exact H.
Qed.

Lemma get_video_urls_effects (E : env) (word : string) (w : world) :
  requests (snd (get_video_urls E word w)) = requests w ++ [page_url word] /\
  files (snd (get_video_urls E word w)) = files w.
Proof.
  pose proof (fetch_page_effects E word w) as H.
  unfold get_video_urls, bind, logger, ret.
  destruct (_fetch_page E word w) as [[[doc|]|e] w1]; exact H.
Qed.

Lemma get_video_details_effects (E : env) (word : string) (w : world) :
  requests (snd (get_video_details E word w)) = requests w ++ [page_url word] /\
  files (snd (get_video_details E word w)) = files w.
Proof.
  pose proof (fetch_page_effects E word w) as H.
  unfold get_video_details, bind, logger, ret.
  destruct (_fetch_page E word w) as [[[doc|]|e] w1]; exact H.
Qed.

Lemma get_primary_video_url_effects (E : env) (word : string) (w : world) :
  requests (snd (get_primary_video_url E word w)) = requests w ++ [page_url word] /\
  files (snd (get_primary_video_url E word w)) = files w.
Proof.
  pose proof (get_video_urls_effects E word w) as H.
  unfold get_primary_video_url, bind, ret.
  destruct (get_video_urls E word w) as [[urls|e] w1]; exact H.
Qed.

(** X2.  [_fetch_page], [word_exists], [get_video_urls], [get_video_details]
    and [get_primary_video_url] each send one request, for the page of the
    normalized word, whatever the answer (there is no retry), and leave the
    cache files alone; two words with one normal form ask for one URL. *)
Theorem scraper_sends_one_request (E : env) (word : string) (w : world) :
  (requests (snd (_fetch_page E word w)) = requests w ++ [page_url word] /\
   files (snd (_fetch_page E word w)) = files w) /\
  (requests (snd (word_exists E word w)) = requests w ++ [page_url word] /\
   files (snd (word_exists E word w)) = files w) /\
  (requests (snd (get_video_urls E word w)) = requests w ++ [page_url word] /\
   files (snd (get_video_urls E word w)) = files w) /\
  (requests (snd (get_video_details E word w)) = requests w ++ [page_url word] /\
   files (snd (get_video_details E word w)) = files w) /\
  (requests (snd (get_primary_video_url E word w)) = requests w ++ [page_url word] /\
   files (snd (get_primary_video_url E word w)) = files w) /\
  (forall word2, _normalize_word word2 = _normalize_word word -> page_url word2 = page_url word).
Proof.
  split; [apply fetch_page_effects|]. split; [apply word_exists_effects|].
  split; [apply get_video_urls_effects|]. split; [apply get_video_details_effects|].
  split; [apply get_primary_video_url_effects|].
  intros word2 H. unfold page_url. now rewrite H.
Qed.

Lemma get_video_urls_reply (E : env) (word : string) (w : world) :
  fst (get_video_urls E word w) =
  match page_of E word w with
  | PageNoReply => Raise RequestError
  | PageReply status body =>
      if error_status status then
        if status =? 404 then Ret [] else Raise (HTTPError status)
      else
        match body with
        | Some doc => Ret (extract_urls doc)
        | None => Raise ParserError
        end
  end.
Proof.
  rewrite get_video_urls_outcome, fetch_page_outcome.
  destruct (page_of E word w) as [|status body]; [reflexivity|].
  destruct (error_status status); [destruct (status =? 404); reflexivity|].
  destruct body; reflexivity.
Qed.

Lemma get_video_urls_mp4 (E : env) (word : string) (w : world) (urls : list string) :
  fst (get_video_urls E word w) = Ret urls ->
  Forall (fun u => Py.endswith u ".mp4" = true /\ u <> EmptyString) urls.
Proof.
  intros H. rewrite get_video_urls_outcome in H.
  destruct (fst (_fetch_page E word w)) as [[doc|]|e]; try discriminate;
    injection H as <-; [|constructor].
  eapply Forall_impl; [apply extract_urls_mp4|]. intros u Hu. split; [exact Hu|].
  intros ->. discriminate.
Qed.

Lemma word_exists_returns (E : env) (word : string) (w : world) :
  exists b w', word_exists E word w = (Ret b, w').
Proof.
  pose proof (word_exists_outcome E word w) as H.
  destruct (word_exists E word w) as [r w']. cbn [fst] in H.
  destruct (fst (_fetch_page E word w)) as [[doc|]|e]; subst r; eauto.
Qed.

(** X3.  [get_video_urls] returns the empty list when the site answers 404
    and raises on every other failure of the fetch (another error status, no
    answer, a body the parser refuses), where [word_exists] returns [False];
    every URL it returns ends with [.mp4]. *)
Theorem get_video_urls_by_reply (E : env) (word : string) (w : world) :
  fst (get_video_urls E word w) =
  match page_of E word w with
  | PageNoReply => Raise RequestError
  | PageReply status body =>
      if error_status status then
        if status =? 404 then Ret [] else Raise (HTTPError status)
      else
        match body with
        | Some doc => Ret (extract_urls doc)
        | None => Raise ParserError
        end
  end /\
  (forall urls, fst (get_video_urls E word w) = Ret urls ->
     Forall (fun u => Py.endswith u ".mp4" = true /\ u <> EmptyString) urls) /\
  (forall e, fst (get_video_urls E word w) = Raise e -> fst (word_exists E word w) = Ret false).
Proof.
  split; [apply get_video_urls_reply|]. split; [apply get_video_urls_mp4|].
  intros e H. rewrite get_video_urls_outcome in H. rewrite word_exists_outcome.
  destruct (fst (_fetch_page E word w)) as [[doc|]|e']; try discriminate. reflexivity.
Qed.

(** X4.  [get_primary_video_url] returns the first URL of [get_video_urls]:
    the [src] of the first [source] tag of the document whose [src] ends with
    [.mp4]; it returns [None] exactly when [get_video_urls] returns the empty
    list, and raises what [get_video_urls] raises. *)
Theorem get_primary_video_url_first (E : env) (word : string) (w : world) :
  fst (get_primary_video_url E word w) =
  match fst (get_video_urls E word w) with
  | Ret urls => Ret (head urls)
  | Raise e => Raise e
  end /\
  (forall u, fst (get_primary_video_url E word w) = Ret (Some u) ->
     exists doc pre source post,
       fst (_fetch_page E word w) = Ret (Some doc) /\
       find_all doc "source" = pre ++ source :: post /\
       mp4_src source = Some u /\
       Forall (fun n => mp4_src n = None) pre) /\
  (fst (get_primary_video_url E word w) = Ret None <->
   fst (get_video_urls E word w) = Ret []).
Proof.
  assert (Hout : fst (get_primary_video_url E word w) =
                 match fst (get_video_urls E word w) with
                 | Ret urls => Ret (head urls)
                 | Raise e => Raise e
                 end).
  { unfold get_primary_video_url, bind, ret.
    destruct (get_video_urls E word w) as [[urls|e] w1]; reflexivity. }
  split; [exact Hout|]. rewrite Hout, get_video_urls_outcome. split.
  - intros u H. destruct (fst (_fetch_page E word w)) as [[doc|]|e]; try discriminate.
    injection H as H. rewrite extract_urls_omap in H.
    apply head_omap in H as (pre & source & post & Hl & Hs & Hpre).
    exists doc, pre, source, post. auto.
  - destruct (fst (_fetch_page E word w)) as [[doc|]|e]; [| tauto | split; discriminate].
    destruct (extract_urls doc); split; intros H; try discriminate; reflexivity.
Qed.

(** ** The endpoints *)

Lemma guarded_run {A} (body : M (Api.response A)) (prefix : string) (w : world) :
  Api.guarded body prefix w =
  (match fst (body w) with
   | Ret r => r
   | Raise e => Api.HTTPException 500 (StrExn prefix e)
   end, snd (body w)).
Proof. unfold Api.guarded. destruct (body w) as [[r|e] w']; reflexivity. Qed.

(** X17.  The endpoint [check_word] never answers 404.  With [exists] false
    it reports no video and has sent one request; with [exists] true it has
    sent two and reports the number of URLs of the second fetch.  It answers
    500 only when [word_exists] returned [True] and the second fetch
    raised; the detail is then the prefix of the endpoint followed by the
    message of that exception. *)
Theorem check_word_spec (E : env) (word : string) (w : world) :
  match Api.check_word E word w with
  | (Api.OK b, w') =>
      Api.check_word_word b = word /\
      fst (word_exists E word w) = Ret (Api.check_word_exists b) /\
      (Api.check_word_exists b = false ->
       Api.check_word_video_count b = 0 /\ requests w' = requests w ++ [page_url word]) /\
      (Api.check_word_exists b = true ->
       requests w' = requests w ++ [page_url word; page_url word] /\
       exists urls,
         fst (get_video_urls E word (snd (word_exists E word w))) = Ret urls /\
         Api.check_word_video_count b = Z.of_nat (length urls))
  | (Api.HTTPException status_code detail, w') =>
      status_code = 500 /\
      fst (word_exists E word w) = Ret true /\
      requests w' = requests w ++ [page_url word; page_url word] /\
      exists e,
        fst (get_video_urls E word (snd (word_exists E word w))) = Raise e /\
        detail = StrExn "Error checking word: " e
  end.
Proof.
  unfold Api.check_word, Api.guarded, Api.scraper.word_exists, Api.scraper.get_video_urls.
  unfold bind at 1.
  destruct (word_exists_returns E word w) as [b (w1 & Hw)].
  pose proof (word_exists_effects E word w) as [Hreq _].
  rewrite Hw in *. cbn [fst snd] in *. destruct b.
  - unfold bind at 1. unfold bind at 1.
    pose proof (get_video_urls_effects E word w1) as [Hreq2 _].
    destruct (get_video_urls E word w1) as [[urls|e] w2]; cbn [fst snd] in *.
    + unfold bind, ret. cbn. repeat split; try discriminate.
      * rewrite Hreq2, Hreq, <- app_assoc. reflexivity.
      * eauto.
    + repeat split; [now rewrite Hreq2, Hreq, <- app_assoc | eauto].
  - unfold bind, ret. cbn. repeat split; try discriminate; auto.
Qed.

(** X18.  The endpoint [get_video_urls] answers 404 exactly when the scraper
    returns the empty list (as it does for a page that is not found), 500
    when the scraper raises, with a detail made of the prefix of the
    endpoint and the message of the exception, and otherwise the list, which
    is then not empty and holds URLs ending with [.mp4]. *)
Theorem api_get_video_urls_spec (E : env) (word : string) (w : world) :
  fst (Api.get_video_urls E word w) =
  match fst (get_video_urls E word w) with
  | Ret [] => Api.HTTPException 404 (Str ("No videos found for word: " +:+ word))
  | Ret video_urls =>
      Api.OK {| Api.video_url_word := word; Api.video_url_video_urls := video_urls |}
  | Raise e => Api.HTTPException 500 (StrExn "Error fetching video URLs: " e)
  end /\
  snd (Api.get_video_urls E word w) = snd (get_video_urls E word w) /\
  (forall body, page_of E word w = PageReply 404 body ->
     fst (Api.get_video_urls E word w)
     = Api.HTTPException 404 (Str ("No videos found for word: " +:+ word))) /\
  (forall status body, page_of E word w = PageReply status body ->
     error_status status = true -> status <> 404 ->
     fst (Api.get_video_urls E word w)
     = Api.HTTPException 500 (StrExn "Error fetching video URLs: " (HTTPError status))) /\
  (forall b, fst (Api.get_video_urls E word w) = Api.OK b ->
     Api.video_url_video_urls b <> [] /\
     Forall (fun u => Py.endswith u ".mp4" = true) (Api.video_url_video_urls b)).
Proof.
  assert (Hrun : fst (Api.get_video_urls E word w) =
    match fst (get_video_urls E word w) with
    | Ret [] => Api.HTTPException 404 (Str ("No videos found for word: " +:+ word))
    | Ret video_urls =>
        Api.OK {| Api.video_url_word := word; Api.video_url_video_urls := video_urls |}
    | Raise e => Api.HTTPException 500 (StrExn "Error fetching video URLs: " e)
    end /\ snd (Api.get_video_urls E word w) = snd (get_video_urls E word w)).
  { unfold Api.get_video_urls, Api.scraper.get_video_urls. rewrite guarded_run.
    unfold bind. destruct (get_video_urls E word w) as [[[|u urls]|e] w1]; split; reflexivity. }
  destruct Hrun as [Hfst Hsnd]. split; [exact Hfst|]. split; [exact Hsnd|].
  rewrite Hfst. pose proof (get_video_urls_reply E word w) as Hreply.
  pose proof (get_video_urls_mp4 E word w) as Hmp4.
  split; [|split].
  - intros body Hp. rewrite Hreply, Hp. reflexivity.
  - intros status body Hp Hs Hne. rewrite Hreply, Hp, Hs.
    now rewrite (proj2 (Z.eqb_neq _ _) Hne).
  - intros b Hb. destruct (fst (get_video_urls E word w)) as [[|u urls]|e] eqn:Hu;
      try discriminate. injection Hb as <-. cbn. split; [discriminate|].
    specialize (Hmp4 _ eq_refl). eapply Forall_impl; [exact Hmp4|]. now intros x [Hx _].
Qed.

(** ** The downloader: effects *)

Section DownloaderMore.
Variable cache_dir : string.

(** A transfer served whole on a working disk leaves the body at the cache
    path. *)
Lemma download_transfer_stores (E : env) (word url : string) (w : world)
    (status : Z) (chunks : list (list Z)) :
  remote E (length (requests w)) url = Reply status chunks Complete ->
  error_status status = false ->
  disk E (length (requests w)) = NoFault ->
  exists w1,
    download_transfer cache_dir E word url w
    = (Ret (Some (_get_cache_path cache_dir word url)), w1) /\
    files w1 = <[_get_cache_filename word url :=
                   File (concat chunks) (flag w (_get_cache_filename word url))]> (files w) /\
    requests w1 = requests w ++ [url].
Proof.
  intros Hr Hs Hd. unfold download_transfer, error_status in *.
  set (name := _get_cache_filename word url).
  unfold bind at 1. unfold logger at 1. unfold bind at 1. unfold requests_get. simpl.
  rewrite Hr, Hd. unfold bind at 1. unfold raise_for_status. rewrite Hs. simpl.
  unfold bind at 1. unfold open_wb, set_files. simpl. unfold bind at 1.
  match goal with |- context [write_chunks ?n ?c ?f ?k ?w0] =>
    destruct (write_chunks_run n c f k w0 (File [] (flag w name))) as (w3 & Hrun & Hfile);
      [ simpl; unfold flag; apply lookup_insert_eq | exact I | ];
    pose proof (write_chunks_frame n c f k w0 _ _ Hrun) as (Hreq & _ & Hoth & _)
  end.
  unfold flag in Hrun. rewrite Hrun. unfold bind, stat_size, logger, ret.
  rewrite Hfile. eexists. split; [reflexivity|]. simpl in *. split; [|exact Hreq].
  apply map_eq. intros i. destruct (decide (i = name)) as [->|Hne].
  - now rewrite Hfile, lookup_insert_eq.
  - rewrite (Hoth i Hne), !lookup_insert_ne by congruence. reflexivity.
Qed.

Lemma download_video_stores (E : env) (word url : string) (force : bool) (w : world)
    (status : Z) (chunks : list (list Z)) :
  bool_decide (is_Some (files w !! _get_cache_filename word url)) && negb force = false ->
  remote E (length (requests w)) url = Reply status chunks Complete ->
  error_status status = false ->
  disk E (length (requests w)) = NoFault ->
  exists w',
    download_video cache_dir E word url force w
    = (Ret (Some (_get_cache_path cache_dir word url)), w') /\
    files w' = <[_get_cache_filename word url :=
                   File (concat chunks) (flag w (_get_cache_filename word url))]> (files w) /\
    requests w' = requests w ++ [url].
Proof.
  intros Hc Hr Hs Hd.
  rewrite download_video_miss by (first [exact Hc | right; rewrite Hd; discriminate]).
  unfold try_except.
  destruct (download_transfer_stores E word url w status chunks Hr Hs Hd)
    as (w1 & -> & Hfs & Hreq). eauto.
Qed.



(** X9.  [is_cached] reads the cache and changes nothing.  It returns
    [True] for a file that is there; for one that is not it returns
    [False], unless the file system does not take the path: then the
    [OSError] of [exists] leaves it.  After a [download_video] that returned
    a path it is true; after one that returned [None] it is false. *)
Theorem is_cached_after_download (E : env) (word url : string) (force : bool) (w : world) :
  snd (is_cached E word url w) = w /\
  (is_Some (files w !! _get_cache_filename word url) ->
   fst (is_cached E word url w) = Ret true) /\
  (files w !! _get_cache_filename word url = None ->
   fst (is_cached E word url w)
   = match disk E (length (requests w)) with
     | NameRefused => Raise OSError
     | _ => Ret false
     end) /\
  (forall p, fst (download_video cache_dir E word url force w) = Ret (Some p) ->
     fst (is_cached E word url (snd (download_video cache_dir E word url force w)))
     = Ret true) /\
  (fst (download_video cache_dir E word url force w) = Ret None ->
   disk E (length (requests (snd (download_video cache_dir E word url force w))))
   <> NameRefused ->
   fst (is_cached E word url (snd (download_video cache_dir E word url force w)))
   = Ret false).
Proof.
  assert (Hthere : forall w0, is_Some (files w0 !! _get_cache_filename word url) ->
            fst (is_cached E word url w0) = Ret true).
  { intros w0 [f Hf]. unfold is_cached, path_exists. now rewrite Hf. }
  assert (Hgone : forall w0, files w0 !! _get_cache_filename word url = None ->
            fst (is_cached E word url w0)
            = match disk E (length (requests w0)) with
              | NameRefused => Raise OSError
              | _ => Ret false
              end).
  { intros w0 Hn. unfold is_cached, path_exists. rewrite Hn.
    now destruct (disk E (length (requests w0))). }
  split; [|split; [apply Hthere|split; [apply Hgone|]]].
  { unfold is_cached, path_exists.
    destruct (files w !! _get_cache_filename word url);
      [|destruct (disk E (length (requests w)))]; reflexivity. }
  destruct (download_video cache_dir E word url force w) as [r w'] eqn:H.
  apply download_video_cases in H. cbn [fst snd].
  destruct H as (_ & [(Hs & _ & -> & Hfs & _) | [(_ & _ & -> & _) |
                       (_ & _ & [[-> Hs] | [[-> Hn] | ->]])]]);
    split; try discriminate; intros.
  - apply Hthere. now rewrite Hfs.
  - now apply Hthere.
  - rewrite (Hgone w' Hn). now destruct (disk E (length (requests w'))).
Qed.

(** X10.  When the file is not cached, the file system takes its path and
    the transfer fails in transport, [download_video] returns [None] and the
    cache files are what they were: no entry is left for the failed
    download. *)
Theorem failed_download_keeps_cache (E : env) (word url : string) (force : bool) (w : world) :
  files w !! _get_cache_filename word url = None ->
  disk E (length (requests w)) <> NameRefused ->
  transport_fails (remote E (length (requests w)) url) (disk E (length (requests w))) = true ->
  exists w',
    download_video cache_dir E word url force w = (Ret None, w') /\
    files w' = files w /\
    requests w' = requests w ++ [url].
Proof.
  intros Hn Hd Ht.
  destruct (download_video_transport_failure cache_dir E word url force w)
    as (w' & Hrun & Hfs & Hreq).
  - rewrite bool_decide_eq_false_2; [reflexivity|]. rewrite Hn. intros [? ?]. discriminate.
  - now right.
  - exact Ht.
  - unfold flag. now rewrite Hn.
  - exists w'. split; [exact Hrun|]. split; [|exact Hreq]. rewrite Hfs. now apply delete_id.
Qed.



End DownloaderMore.

(** ** Patterns built from any word *)

Lemma class_text_eq (s : string) :
  class_text s =
  let '(p1, s1) := split_head "!" s in
  let '(p2, s2) := split_head "]" s1 in
  match until_bracket s2 with
  | Some (a, rest) => Some (p1 +:+ p2 +:+ a, rest)
  | None => None
  end.
Proof.
  destruct s as [|c r]; [reflexivity|].
  destruct c as [[] [] [] [] [] [] [] []]; try reflexivity.
  destruct r as [|d r]; [reflexivity|].
  destruct d as [[] [] [] [] [] [] [] []]; reflexivity.
Qed.

Lemma split_head_app (ch : ascii) (s p r : string) :
  split_head ch s = (p, r) -> s = p +:+ r.
Proof.
  destruct s as [|c s]; simpl; [intros H; now inversion H|].
  destruct (Ascii.eqb_spec c ch) as [->|]; intros H; inversion H; reflexivity.
Qed.

Lemma until_bracket_app (s a rest : string) :
  until_bracket s = Some (a, rest) -> s = a +:+ String "]" rest.
Proof.
  revert a. induction s as [|c s IH]; intros a; simpl; [discriminate|].
  destruct (Ascii.eqb_spec c "]") as [->|].
  - intros H. inversion H. reflexivity.
  - destruct (until_bracket s) as [[a' b']|]; [|discriminate].
    intros H. inversion H; subst. rewrite append_cons. f_equal. now apply IH.
Qed.

(** The text of a class and what follows it make up the pattern. *)
Lemma class_text_app (s text rest : string) :
  class_text s = Some (text, rest) -> s = text +:+ String "]" rest.
Proof.
  rewrite class_text_eq.
  destruct (split_head "!" s) as [p1 s1] eqn:H1.
  destruct (split_head "]" s1) as [p2 s2] eqn:H2.
  destruct (until_bracket s2) as [[a b]|] eqn:H3; [|discriminate].
  intros H. inversion H; subst.
  apply split_head_app in H1. apply split_head_app in H2. apply until_bracket_app in H3.
  subst. now rewrite !append_assoc.
Qed.

Lemma closes_inside (x suf t rest : string) :
  no_bracket suf = true ->
  x +:+ suf = t +:+ String "]" rest ->
  (String.length t < String.length x)%nat.
Proof.
  intros Hs. revert t. induction x as [|c x IH]; intros t H.
  - rewrite append_nil in H. subst suf. exfalso. clear -Hs.
    induction t as [|d t IH]; unfold no_bracket in *.
    + rewrite append_nil in Hs. simpl in Hs. discriminate.
    + rewrite append_cons in Hs. cbn [all_chars] in Hs. apply andb_true_iff in Hs as [_ Hs].
      now apply IH.
  - destruct t as [|d t]; [simpl; lia|].
    rewrite !append_cons in H. injection H as _ H. apply IH in H. simpl. lia.
Qed.

(** What a suffix without closing bracket adds to a pattern, it adds to its
    tokens. *)
Lemma tokens_app (suf : string) :
  no_bracket suf = true ->
  forall (s : string) (k : nat),
  (k <= String.length s)%nat ->
  exists ts, tokens k (s +:+ suf) = ts ++ tokens 0 suf.
Proof.
  intros Hs. induction s as [|c s IH]; intros k Hk.
  - simpl in Hk. assert (k = 0%nat) as -> by lia. exists []. reflexivity.
  - rewrite append_cons. cbn [tokens]. destruct k as [|k].
    + destruct (Ascii.eqb c "*").
      { destruct (IH 0%nat) as (ts & ->); [lia|]. exists (TStar :: ts). reflexivity. }
      destruct (Ascii.eqb c "?").
      { destruct (IH 0%nat) as (ts & ->); [lia|]. exists (TAny :: ts). reflexivity. }
      destruct (Ascii.eqb c "[").
      * destruct (class_text (s +:+ suf)) as [[text rest]|] eqn:Hc.
        -- apply class_text_app in Hc. apply (closes_inside _ _ _ _ Hs) in Hc.
           destruct (IH (S (String.length text))) as (ts & ->); [lia|].
           exists (class_token text :: ts). reflexivity.
        -- destruct (IH 0%nat) as (ts & ->); [lia|]. exists (TLit c :: ts). reflexivity.
      * destruct (IH 0%nat) as (ts & ->); [lia|]. exists (TLit c :: ts). reflexivity.
    + simpl in Hk. apply IH. lia.
Qed.

Lemma match_tokens_app (ts ts2 : list token) :
  forall name,
  match_tokens (ts ++ ts2) name = true ->
  exists a b, name = a +:+ b /\ match_tokens ts2 b = true.
Proof.
  induction ts as [|t ts IH]; intros name H.
  - exists EmptyString, name. auto.
  - cbn [app] in H. destruct t as [c| | |neg items].
    + cbn [match_tokens] in H. destruct name as [|d name]; [discriminate|].
      apply andb_true_iff in H as [_ H]. destruct (IH _ H) as (a & b & -> & Hb).
      exists (String d a), b. auto.
    + cbn [match_tokens] in H. destruct name as [|d name]; [discriminate|].
      destruct (IH _ H) as (a & b & -> & Hb). exists (String d a), b. auto.
    + apply match_star in H as (a & b & -> & Hb). destruct (IH _ Hb) as (a' & b' & -> & Hb').
      exists (a +:+ a'), b'. split; [now rewrite append_assoc | exact Hb'].
    + cbn [match_tokens] in H. destruct name as [|d name]; [discriminate|].
      apply andb_true_iff in H as [_ H]. destruct (IH _ H) as (a & b & -> & Hb).
      exists (String d a), b. auto.
Qed.

(** Whatever the word, its pattern selects names that end with [.mp4]. *)
Lemma fnmatch_word_mp4 (s name : string) :
  fnmatch name (s +:+ "_*.mp4") = true -> exists mid, name = mid +:+ ".mp4".
Proof.
  unfold fnmatch. destruct (tokens_app "_*.mp4" eq_refl s 0%nat) as (ts & ->); [lia|].
  intros H. apply match_tokens_app in H as (a & b & -> & Hb).
  change (tokens 0 "_*.mp4") with (lits "_" ++ TStar :: lits ".mp4" ++ []) in Hb.
  apply match_lits in Hb as (n1 & -> & Hn).
  apply match_star in Hn as (a' & b' & -> & Hb').
  apply match_lits in Hb' as (n2 & -> & Hn2). apply match_nil in Hn2 as ->.
  exists (a +:+ "_" +:+ a'). now rewrite append_empty_r, !append_assoc.
Qed.


Section CacheStoreMore.
Variable cache_dir : string.

Lemma elem_of_path_list (pat : string) (w : world) (p : string) :
  p ∈ map (path_str cache_dir) (glob pat w) <->
  exists name, p = path_str cache_dir name /\ is_Some (files w !! name) /\
               no_sep name = true /\ fnmatch name pat = true.
Proof.
  rewrite list_elem_of_In, in_map_iff. split.
  - intros (name & <- & Hin). apply list_elem_of_In, elem_of_glob in Hin.
    exists name. tauto.
  - intros (name & -> & Hs & Hn & Hm). exists name. split; [reflexivity|].
    apply list_elem_of_In, elem_of_glob. auto.
Qed.

(** X12.  For a word whose safe form holds no path separator:
    [get_cached_videos] raises what [glob] raises on a pattern it refuses
    (a doubled star), and otherwise returns, without changing anything,
    paths that [list_all_cached] returns too, each the path of an entry of
    the cache whose name ends with [.mp4]. *)
Theorem cached_videos_are_listed (word : string) (w : world) :
  no_sep (safe_word word) = true ->
  match glob_error (word_pattern word) with
  | Some e => get_cached_videos cache_dir word w = (Raise e, w)
  | None =>
      exists paths,
        get_cached_videos cache_dir word w = (Ret paths, w) /\
        forall p, p ∈ paths ->
          p ∈ list_all_cached cache_dir w /\
          exists mid,
            p = path_str cache_dir (mid +:+ ".mp4") /\
            is_Some (files w !! (mid +:+ ".mp4")) /\
            no_sep (mid +:+ ".mp4") = true
  end.
Proof.
  intros _. rewrite get_cached_videos_run.
  destruct (glob_error (word_pattern word)); [reflexivity|].
  eexists. split; [reflexivity|]. intros p H. unfold word_pattern in H.
  apply elem_of_path_list in H as (name & -> & Hs & Hn & Hm).
  destruct (fnmatch_word_mp4 _ _ Hm) as (mid & ->). split; [|eauto].
  apply elem_of_path_list. exists (mid +:+ ".mp4"). split; [reflexivity|]. split; [exact Hs|].
  split; [exact Hn|]. apply fnmatch_all_mp4. eauto.
Qed.


Lemma filter_all {A} (f : A -> bool) (l : list A) :
  (forall x, In x l -> f x = true) -> List.filter f l = l.
Proof.
  induction l as [|a l IH]; intros H; [reflexivity|]. simpl.
  rewrite (H a) by now left. f_equal. apply IH. intros x Hx. apply H. now right.
Qed.

Lemma filter_none {A} (f : A -> bool) (l : list A) :
  (forall x, In x l -> f x = false) -> List.filter f l = [].
Proof.
  induction l as [|a l IH]; intros H; [reflexivity|]. simpl.
  rewrite (H a) by now left. apply IH. intros x Hx. apply H. now right.
Qed.

(** X16.  For a word argument whose pattern is one path component: when
    [glob] takes the pattern, a second [clear_cache] for the same word
    deletes nothing, returns 0 and leaves the files as the first one left
    them; when [glob] refuses it, the call raises and changes nothing. *)
Theorem clear_cache_twice (word : option string) (w : world) :
  one_component word = true ->
  match glob_error (clear_pattern word) with
  | None =>
      fst (clear_cache cache_dir word (snd (clear_cache cache_dir word w))) = Ret 0 /\
      files (snd (clear_cache cache_dir word (snd (clear_cache cache_dir word w))))
      = files (snd (clear_cache cache_dir word w))
  | Some e => clear_cache cache_dir word w = (Raise e, w)
  end.
Proof.
  intros _. destruct (glob_error (clear_pattern word)) as [e|] eqn:Hpat;
    [now apply clear_cache_refused|].
  destruct (clear_cache_run cache_dir word w Hpat) as (w1 & Hrun & _ & Hfs & _).
  rewrite Hrun. cbn [snd].
  destruct (clear_cache_run cache_dir word w1 Hpat) as (w2 & Hrun2 & _ & Hfs2 & _).
  rewrite Hrun2. cbn [fst snd].
  assert (Hkept : forall name, In name (glob (clear_pattern word) w1) ->
                    deletable w1 name = false).
  { intros name Hin. apply list_elem_of_In in Hin.
    apply elem_of_glob in Hin as (Hs & Hn & Hm). unfold deletable at 1.
    rewrite Hfs in Hs |- *. unfold after_clear in *.
    destruct (bool_decide (name ∈ glob (clear_pattern word) w) && deletable w name) eqn:Hb.
    - destruct Hs as [? ?]. discriminate.
    - apply andb_false_iff in Hb as [Hb | Hb].
      + exfalso. apply bool_decide_eq_false in Hb. apply Hb.
        apply elem_of_glob. auto.
      + exact Hb. }
  split.
  - now rewrite (filter_none _ _ Hkept).
  - apply map_eq. intros name. rewrite Hfs2. unfold after_clear.
    destruct (bool_decide (name ∈ glob (clear_pattern word) w1)) eqn:Hin; [|reflexivity].
    apply bool_decide_eq_true, list_elem_of_In in Hin. now rewrite (Hkept name Hin).
Qed.

Lemma fold_size (w : world) (l : list string) (acc : Z) :
  fold_left (fun total_size name =>
               match files w !! name with
               | Some f => total_size + Z.of_nat (length (content f))
               | None => total_size
               end) l acc
  = acc + sumZ (map (fun name => match files w !! name with
                                 | Some f => Z.of_nat (length (content f))
                                 | None => 0
                                 end) l).
Proof.
  revert acc. induction l as [|name l IH]; intros acc; simpl; [lia|].
  rewrite IH. destruct (files w !! name); lia.
Qed.

Lemma sum_listed (w : world) (l : list (string * file)) :
  (forall k f, (k, f) ∈ l -> files w !! k = Some f) ->
  sumZ (map (fun name => match files w !! name with
                         | Some f => Z.of_nat (length (content f))
                         | None => 0
                         end)
          (filter (fun name => fnmatch name "*.mp4" = true)
             (filter (fun name => no_sep name = true) (map fst l))))
  = sumZ (map weight l).
Proof.
  induction l as [|[k f] l IH]; intros H; [reflexivity|].
  cbn [map fst]. rewrite filter_cons. unfold weight at 1. cbn [fst snd sumZ map].
  rewrite <- IH by (intros k' f' Hin; apply H; now apply list_elem_of_further).
  destruct (decide (no_sep k = true)) as [Hn|Hn].
  - rewrite Hn, filter_cons. cbn [andb].
    destruct (decide (fnmatch k "*.mp4" = true)) as [Hm|Hm].
    + rewrite Hm. cbn [map sumZ]. rewrite (H k f) by apply list_elem_of_here. reflexivity.
    + destruct (fnmatch k "*.mp4"); [congruence|]. lia.
  - destruct (no_sep k); [congruence|]. cbn [andb]. lia.
Qed.

(** The size of the cache is the sum of the sizes of its [.mp4] files. *)
Lemma cache_size_sum (w : world) :
  get_cache_size w = sumZ (map weight (map_to_list (files w))).
Proof.
  unfold get_cache_size, glob, scandir. rewrite fold_size, Z.add_0_l. apply sum_listed.
  intros k f. apply elem_of_map_to_list.
Qed.

Lemma sumZ_perm (l1 l2 : list Z) : l1 ≡ₚ l2 -> sumZ l1 = sumZ l2.
Proof. induction 1; simpl; lia. Qed.

Lemma cache_size_insert (w w' : world) (name : string) (f : file) :
  files w !! name = None ->
  files w' = <[name := f]> (files w) ->
  get_cache_size w' = get_cache_size w + weight (name, f).
Proof.
  intros Hn Hf. rewrite !cache_size_sum, Hf.
  rewrite (sumZ_perm _ (map weight ((name, f) :: map_to_list (files w)))).
  - simpl. lia.
  - apply Permutation_map. now apply map_to_list_insert.
Qed.

Lemma cache_size_replace (w w' : world) (name : string) (f : file) :
  files w' = <[name := f]> (files w) ->
  get_cache_size w'
  = get_cache_size w
    - match files w !! name with Some old => weight (name, old) | None => 0 end
    + weight (name, f).
Proof.
  intros Hf. destruct (files w !! name) as [old|] eqn:Hold.
  - set (w0 := World (delete name (files w)) (requests w) (log w)).
    rewrite (cache_size_insert w0 w' name f), (cache_size_insert w0 w name old); simpl.
    + lia.
    + apply lookup_delete_eq.
    + now rewrite insert_delete_id.
    + apply lookup_delete_eq.
    + now rewrite Hf, insert_delete_eq.
  - rewrite (cache_size_insert w w' name f Hold Hf). lia.
Qed.

Lemma cache_filename_weight (word url : string) (f : file) :
  no_sep (safe_word word) = true ->
  weight (_get_cache_filename word url, f) = Z.of_nat (length (content f)).
Proof.
  intros Hn. unfold weight. cbn [fst snd]. rewrite cache_filename_no_sep, Hn.
  now rewrite (proj2 (fnmatch_all_mp4 _) (cache_filename_mp4 word url)).
Qed.

(** X15.  For a word whose safe form holds no path separator, so that its
    cache file is an entry of the cache directory: after a transfer that is
    served whole, [get_cache_size] is what it was, less the size of the file
    the download replaced, if any, plus the number of bytes of the body. *)
Theorem download_video_cache_size (E : env) (word url : string) (force : bool) (w : world)
    (status : Z) (chunks : list (list Z)) :
  no_sep (safe_word word) = true ->
  bool_decide (is_Some (files w !! _get_cache_filename word url)) && negb force = false ->
  remote E (length (requests w)) url = Reply status chunks Complete ->
  error_status status = false ->
  disk E (length (requests w)) = NoFault ->
  get_cache_size (snd (download_video cache_dir E word url force w))
  = get_cache_size w
    - match files w !! _get_cache_filename word url with
      | Some old => Z.of_nat (length (content old))
      | None => 0
      end
    + Z.of_nat (length (concat chunks)).
Proof.
  intros Hn Hc Hr Hs Hd.
  destruct (download_video_stores cache_dir E word url force w status chunks Hc Hr Hs Hd)
    as (w' & -> & Hfs & _).
  cbn [snd]. rewrite (cache_size_replace w w' _ _ Hfs), cache_filename_weight by exact Hn.
  cbn [content].
  destruct (files w !! _get_cache_filename word url);
    [now rewrite cache_filename_weight by exact Hn|].
  reflexivity.
Qed.

(** X14.  When every cached [.mp4] file can be unlinked, [clear_cache]
    without a word returns the number of files [list_all_cached] listed, and
    afterwards [list_all_cached] is empty and [get_cache_size] is 0. *)
Theorem clear_cache_all_empties (w : world) :
  forallb (deletable w) (glob "*.mp4" w) = true ->
  fst (clear_cache cache_dir None w) = Ret (Z.of_nat (length (list_all_cached cache_dir w))) /\
  list_all_cached cache_dir (snd (clear_cache cache_dir None w)) = [] /\
  get_cache_size (snd (clear_cache cache_dir None w)) = 0.
Proof.
  intros Hevery.
  assert (Hall : forall name, name ∈ glob "*.mp4" w -> deletable w name = true).
  { intros name Hin. rewrite forallb_forall in Hevery. now apply Hevery, list_elem_of_In. }
  destruct (clear_cache_run cache_dir None w eq_refl) as (w' & Hrun & _ & Hfs & _).
  rewrite Hrun. cbn [fst snd clear_pattern] in *.
  assert (Hempty : glob "*.mp4" w' = []).
  { apply elem_of_nil_inv. intros name Hin. apply elem_of_glob in Hin as (Hs & Hn & Hm).
    rewrite Hfs in Hs. unfold after_clear in Hs.
    destruct (bool_decide (name ∈ glob "*.mp4" w)) eqn:Hb.
    - apply bool_decide_eq_true in Hb. rewrite (Hall name Hb) in Hs. simpl in Hs.
      destruct Hs as [? ?]. discriminate.
    - simpl in Hs. apply bool_decide_eq_false in Hb. apply Hb. apply elem_of_glob. auto. }
  split; [|split].
  - rewrite filter_all by (intros x Hx; apply Hall; now apply list_elem_of_In).
    unfold list_all_cached. now rewrite length_map.
  - unfold list_all_cached. now rewrite Hempty.
  - unfold get_cache_size. now rewrite Hempty.
Qed.

End CacheStoreMore.

(** ** The endpoints: downloads and the cache *)

Lemma nonempty_false {A} (l : list A) : Api.nonempty l = false <-> l = [].
Proof. destruct l; simpl; split; congruence. Qed.

(** X19.  The endpoint [download_video] answers 404 when the scraper returns
    no URL and 500 when the scraper raises (the detail: the prefix of the
    endpoint and the message of the exception), in both cases without
    touching the cache; it raises no other status.  A response has [success] true
    exactly when its list of cached videos is not empty, and that list is
    what [download_all_videos] returned for the URLs of the scraper. *)
Theorem api_download_video_spec (E : env) (word : string) (force : bool) (w : world) :
  (fst (get_video_urls E word w) = Ret [] ->
   fst (Api.download_video E word force w)
   = Api.HTTPException 404 (Str ("No videos found for word: " +:+ word)) /\
   files (snd (Api.download_video E word force w)) = files w) /\
  (forall e, fst (get_video_urls E word w) = Raise e ->
     fst (Api.download_video E word force w)
     = Api.HTTPException 500 (StrExn "Error downloading video: " e) /\
     files (snd (Api.download_video E word force w)) = files w) /\
  (forall status_code detail,
     fst (Api.download_video E word force w) = Api.HTTPException status_code detail ->
     status_code = 404 \/ status_code = 500) /\
  (forall b, fst (Api.download_video E word force w) = Api.OK b ->
     Api.download_word b = word /\
     Api.download_success b = Api.nonempty (Api.download_cached_videos b) /\
     exists video_urls,
       video_urls <> [] /\
       fst (get_video_urls E word w) = Ret video_urls /\
       fst (download_all_videos "cache" E word video_urls force (snd (get_video_urls E word w)))
       = Ret (Api.download_cached_videos b)).
Proof.
  destruct (Api.download_video E word force w) as [r w'] eqn:Hrun.
  unfold Api.download_video, Api.guarded, Api.scraper.get_video_urls,
    Api.downloader.download_all_videos in Hrun.
  unfold bind at 1 in Hrun.
  pose proof (get_video_urls_effects E word w) as [_ Hfiles].
  destruct (get_video_urls E word w) as [[[|u urls]|e] w1]; unfold ret in Hrun;
    cbn [fst snd Api.nonempty negb] in *.
  - injection Hrun as <- <-.
    split; [intros _; split; [reflexivity | exact Hfiles]|].
    split; [discriminate|]. split; [|discriminate].
    intros status_code detail Hr. injection Hr as <- _. now left.
  - split; [discriminate|]. split; [discriminate|]. unfold bind in Hrun.
    destruct (download_all_videos "cache" E word (u :: urls) force w1)
      as [[[|p paths]|e] w2] eqn:Hd; cbn [fst snd Api.nonempty negb] in *;
      injection Hrun as <- <-.
    + split; [discriminate|]. intros b Hr. injection Hr as <-. cbn.
      split; [reflexivity|]. split; [reflexivity|]. exists (u :: urls).
      split; [discriminate|]. split; [reflexivity | now rewrite Hd].
    + split; [discriminate|]. intros b Hr. injection Hr as <-. cbn.
      split; [reflexivity|]. split; [reflexivity|]. exists (u :: urls).
      split; [discriminate|]. split; [reflexivity | now rewrite Hd].
    + split; [|discriminate].
      intros status_code detail Hr. injection Hr as <- _. now right.
  - injection Hrun as <- <-. split; [discriminate|]. split; [|split; [|discriminate]].
    + intros e' Hr. injection Hr as <-. split; [reflexivity | exact Hfiles].
    + intros status_code detail Hr. injection Hr as <- _. now right.
Qed.

Lemma batch_word_run (E : env) (force : bool) (st : Api.batch_state) (word : string)
    (w : world) :
  Api.batch_word E force st word w
  = (Ret {| Api.results := Api.results st ++ [fst (word_result E force word w)];
            Api.successful :=
              Api.successful st
              + (if is_downloaded (fst (word_result E force word w)) then 1 else 0);
            Api.failed :=
              Api.failed st
              + (if is_downloaded (fst (word_result E force word w)) then 0 else 1) |},
     snd (word_result E force word w)) /\
  result_word (fst (word_result E force word w)) = word.
Proof.
  unfold Api.batch_word, word_result, try_except, Api.scraper.get_video_urls,
    Api.downloader.download_all_videos. unfold bind at 1.
  destruct (get_video_urls E word w) as [[[|u urls]|e] w1]; cbn [Api.nonempty negb].
  - unfold ret. cbn. rewrite Z.add_0_r. auto.
  - unfold bind.
    destruct (download_all_videos "cache" E word (u :: urls) force w1)
      as [[[|p paths]|e] w2]; cbn [Api.nonempty]; unfold ret; cbn; rewrite Z.add_0_r; auto.
  - unfold ret. cbn. rewrite Z.add_0_r. auto.
Qed.

Lemma word_results_words (E : env) (force : bool) (words : list string) :
  forall w, map result_word (word_results E force words w) = words.
Proof.
  induction words as [|word rest IH]; intros w; [reflexivity|].
  cbn [word_results map]. rewrite IH.
  now rewrite (proj2 (batch_word_run E force {| Api.results := []; Api.successful := 0;
                                                 Api.failed := 0 |} word w)).
Qed.

Lemma batch_loop_spec (E : env) (force : bool) (words : list string) :
  forall (st : Api.batch_state) (w : world),
  exists st' w',
    Api.batch_loop E force words st w = (Ret st', w') /\
    Api.results st' = Api.results st ++ word_results E force words w /\
    Api.successful st' = Api.successful st + count_downloaded (word_results E force words w) /\
    Api.failed st' = Api.failed st + count_not_downloaded (word_results E force words w).
Proof.
  induction words as [|word rest IH]; intros st w.
  - exists st, w. split; [reflexivity|]. cbn [word_results]. rewrite app_nil_r.
    unfold count_downloaded, count_not_downloaded. simpl. repeat split; lia.
  - cbn [Api.batch_loop word_results]. unfold bind at 1.
    destruct (batch_word_run E force st word w) as [-> _].
    set (r := fst (word_result E force word w)).
    set (w1 := snd (word_result E force word w)).
    destruct (IH {| Api.results := Api.results st ++ [r];
                    Api.successful := Api.successful st + (if is_downloaded r then 1 else 0);
                    Api.failed := Api.failed st + (if is_downloaded r then 0 else 1) |} w1)
      as (st' & w' & -> & Hres & Hs & Hf).
    cbn [Api.results Api.successful Api.failed] in *.
    exists st', w'. split; [reflexivity|].
    split; [now rewrite Hres, <- app_assoc|].
    unfold count_downloaded, count_not_downloaded in *. cbn [List.filter].
    destruct (is_downloaded r); cbn [negb length]; split; lia.
Qed.

Lemma count_downloaded_split (l : list Api.batch_result) :
  count_downloaded l + count_not_downloaded l = Z.of_nat (length l).
Proof.
  unfold count_downloaded, count_not_downloaded. induction l as [|r l IH]; [reflexivity|].
  cbn [List.filter length]. destruct (is_downloaded r); cbn [negb length]; lia.
Qed.

(** X20.  [batch_download] always returns.  There is one result per word,
    in the order of the words, and the result of a word is read off what the
    scraper and the downloader did for it in the world the words before it
    left: an exception of either is recorded as a failure that carries the
    message of the exception, and the loop goes on; no URL and no path are
    failures too; a result is a success only when [download_all_videos]
    returned paths, which it then lists.  [successful] and [failed] count
    the results of each kind and add up to [total_words]. *)
Theorem batch_download_spec (E : env) (words : list string) (force : bool) (w : world) :
  (exists resp w',
     Api.batch_download E words force w = (Ret resp, w') /\
     Api.batch_total_words resp = Z.of_nat (length words) /\
     Api.batch_results resp = word_results E force words w /\
     map result_word (Api.batch_results resp) = words /\
     Api.batch_successful resp = count_downloaded (Api.batch_results resp) /\
     Api.batch_failed resp = count_not_downloaded (Api.batch_results resp) /\
     Api.batch_successful resp + Api.batch_failed resp = Api.batch_total_words resp) /\
  (forall word w0 e,
     fst (get_video_urls E word w0) = Raise e ->
     fst (word_result E force word w0) = Api.NotDownloaded word (StrExn "" e)) /\
  (forall word w0,
     fst (get_video_urls E word w0) = Ret [] ->
     fst (word_result E force word w0) = Api.NotDownloaded word (Str "No videos found")) /\
  (forall word w0 video_urls e,
     fst (get_video_urls E word w0) = Ret video_urls -> video_urls <> [] ->
     fst (download_all_videos "cache" E word video_urls force (snd (get_video_urls E word w0)))
     = Raise e ->
     fst (word_result E force word w0) = Api.NotDownloaded word (StrExn "" e)) /\
  (forall word w0,
     is_downloaded (fst (word_result E force word w0)) = true ->
     exists video_urls cached_paths,
       fst (get_video_urls E word w0) = Ret video_urls /\ video_urls <> [] /\
       fst (download_all_videos "cache" E word video_urls force
              (snd (get_video_urls E word w0))) = Ret cached_paths /\
       cached_paths <> [] /\
       fst (word_result E force word w0)
       = Api.Downloaded word (Z.of_nat (length cached_paths)) cached_paths).
Proof.
  split; [|split; [|split; [|split]]].
  - unfold Api.batch_download, bind.
    destruct (batch_loop_spec E force words
                {| Api.results := []; Api.successful := 0; Api.failed := 0 |} w)
      as (st' & w' & -> & Hres & Hs & Hf).
    cbn [Api.results Api.successful Api.failed app] in *.
    eexists. exists w'. split; [reflexivity|].
    cbn [Api.batch_total_words Api.batch_results Api.batch_successful Api.batch_failed].
    rewrite Hres, Hs, Hf, !Z.add_0_l.
    split; [reflexivity|]. split; [reflexivity|]. split; [apply word_results_words|].
    split; [reflexivity|]. split; [reflexivity|].
    rewrite count_downloaded_split. unfold Api.len.
    rewrite <- (word_results_words E force words w) at 2. now rewrite length_map.
  - intros word w0 e H. unfold word_result.
    destruct (get_video_urls E word w0) as [[urls|e'] w1]; [discriminate|].
    injection H as ->. reflexivity.
  - intros word w0 H. unfold word_result.
    destruct (get_video_urls E word w0) as [[urls|e'] w1]; [|discriminate].
    injection H as ->. reflexivity.
  - intros word w0 urls e H Hne Hd. unfold word_result.
    destruct (get_video_urls E word w0) as [[urls'|e'] w1]; [|discriminate].
    injection H as ->. cbn [snd] in Hd. destruct urls as [|u urls]; [contradiction|].
    destruct (download_all_videos "cache" E word (u :: urls) force w1) as [[paths|e'] w2];
      [discriminate|]. injection Hd as ->. reflexivity.
  - intros word w0. unfold word_result.
    destruct (get_video_urls E word w0) as [[[|u urls]|e'] w1]; cbn [fst snd];
      try discriminate.
    destruct (download_all_videos "cache" E word (u :: urls) force w1)
      as [[[|p paths]|e'] w2] eqn:Hd; cbn [fst]; try discriminate.
    intros _. exists (u :: urls), (p :: paths). rewrite Hd.
    split; [reflexivity|]. split; [discriminate|]. split; [reflexivity|].
    split; [discriminate | reflexivity].
Qed.

(** X21.  For a word argument whose pattern is one path component, the
    endpoint [clear_cache] answers with a response when [glob] takes the
    pattern, also when files cannot be unlinked: [deleted_count] is the
    number of files deleted, and no request is sent.  When [glob] refuses
    the pattern (a doubled star in the word), the endpoint answers 500 with
    the message of the exception and nothing is deleted. *)
Theorem api_clear_cache_spec (word : option string) (w : world) :
  one_component word = true ->
  match glob_error (clear_pattern word) with
  | None =>
      exists resp,
        Api.clear_cache word w = (Api.OK resp, snd (clear_cache "cache" word w)) /\
        fst (clear_cache "cache" word w) = Ret (Api.clear_deleted_count resp) /\
        Api.clear_deleted_count resp
        = Z.of_nat (length (List.filter (deletable w) (glob (clear_pattern word) w))) /\
        requests (snd (clear_cache "cache" word w)) = requests w
  | Some e =>
      Api.clear_cache word w
      = (Api.HTTPException 500 (StrExn "Error clearing cache: " e), w)
  end.
Proof.
  intros _. destruct (glob_error (clear_pattern word)) as [e|] eqn:Hpat.
  - unfold Api.clear_cache, Api.guarded, Api.downloader.clear_cache, bind.
    now rewrite (clear_cache_refused "cache" word w e Hpat).
  - destruct (clear_cache_run "cache" word w Hpat) as (w' & Hrun & Hreq & _).
    unfold Api.clear_cache, Api.guarded, Api.downloader.clear_cache, bind. rewrite Hrun.
    eexists. split; [reflexivity|]. cbn. auto.
Qed.

(** ** Runs of the scenarios *)


Lemma failed_download_keeps_cache_witness :
  exists w',
    download_video "cache" u1_down_env "hello" "u1" false hello_cache = (Ret None, w') /\
    files w' = files hello_cache /\
    requests w' = requests hello_cache ++ ["u1"].
Proof.
  apply (failed_download_keeps_cache "cache" u1_down_env "hello" "u1" false hello_cache);
    [reflexivity | discriminate | reflexivity].
Defined.

Lemma cached_videos_are_listed_witness :
  exists paths,
    get_cached_videos "cache" "hello" hello_world_word_cache
    = (Ret paths, hello_world_word_cache) /\
    forall p, p ∈ paths ->
      p ∈ list_all_cached "cache" hello_world_word_cache /\
      exists mid,
        p = path_str "cache" (mid +:+ ".mp4") /\
        is_Some (files hello_world_word_cache !! (mid +:+ ".mp4")) /\
        no_sep (mid +:+ ".mp4") = true.
Proof.
  exact (cached_videos_are_listed "cache" "hello" hello_world_word_cache eq_refl).
Defined.

Lemma clear_cache_twice_witness :
  fst (clear_cache "cache" (Some "hello")
         (snd (clear_cache "cache" (Some "hello") locked_cache))) = Ret 0 /\
  files (snd (clear_cache "cache" (Some "hello")
                (snd (clear_cache "cache" (Some "hello") locked_cache))))
  = files (snd (clear_cache "cache" (Some "hello") locked_cache)).
Proof.
  exact (clear_cache_twice "cache" (Some "hello") locked_cache eq_refl).
Defined.

Lemma api_clear_cache_spec_witness :
  exists resp,
    Api.clear_cache (Some "hello") locked_cache
    = (Api.OK resp, snd (clear_cache "cache" (Some "hello") locked_cache)) /\
    fst (clear_cache "cache" (Some "hello") locked_cache)
    = Ret (Api.clear_deleted_count resp) /\
    Api.clear_deleted_count resp
    = Z.of_nat (length (List.filter (deletable locked_cache)
                          (glob (clear_pattern (Some "hello")) locked_cache))) /\
    requests (snd (clear_cache "cache" (Some "hello") locked_cache))
    = requests locked_cache.
Proof.
  exact (api_clear_cache_spec (Some "hello") locked_cache eq_refl).
Defined.

Lemma clear_cache_all_empties_witness :
  fst (clear_cache "cache" None hello_world_cache)
  = Ret (Z.of_nat (length (list_all_cached "cache" hello_world_cache))) /\
  list_all_cached "cache" (snd (clear_cache "cache" None hello_world_cache)) = [] /\
  get_cache_size (snd (clear_cache "cache" None hello_world_cache)) = 0.
Proof.
  apply (clear_cache_all_empties "cache" hello_world_cache). reflexivity.
Defined.

Lemma download_video_cache_size_witness :
  get_cache_size (snd (download_video "cache" serving_env "hello" "u" true hello_cache))
  = get_cache_size hello_cache
    - match files hello_cache !! _get_cache_filename "hello" "u" with
      | Some old => Z.of_nat (length (content old))
      | None => 0
      end
    + Z.of_nat (length (concat [[1; 2]; []; [3]])).
Proof.
  apply (download_video_cache_size "cache" serving_env "hello" "u" true hello_cache 200);
    reflexivity.
Defined.

Example get_cache_size_hello_world : get_cache_size hello_world_cache = 6.
Proof. vm_compute. reflexivity. Qed.

Example extract_details_two_videos :
  extract_details two_videos_page
  = [ VideoInfo "a.mp4" "" "" "video/mp4";
      VideoInfo "b.mp4" "" "" "video/mp4";
      VideoInfo "a.mp4" "" "" "video/mp4" ].
Proof. reflexivity. Qed.

Example check_word_without_mp4 :
  fst (Api.check_word webm_env "Hello" empty_world)
  = Api.OK {| Api.check_word_word := "Hello";
              Api.check_word_exists := true;
              Api.check_word_video_count := 0 |}.
Proof. reflexivity. Qed.

Example api_get_video_urls_without_mp4 :
  fst (Api.get_video_urls webm_env "Hello" empty_world)
  = Api.HTTPException 404 (Str "No videos found for word: Hello").
Proof. reflexivity. Qed.

Example batch_download_unreachable_site :
  fst (Api.batch_download serving_env ["hello"; "world"] false empty_world)
  = Ret {| Api.batch_total_words := 2;
           Api.batch_successful := 0;
           Api.batch_failed := 2;
           Api.batch_results :=
             [ Api.NotDownloaded "hello" (StrExn "" RequestError);
               Api.NotDownloaded "world" (StrExn "" RequestError) ] |}.
Proof. vm_compute. reflexivity. Qed.

Example api_download_test_word :
  fst (Api.download_video signing_env "Test Word" false empty_world)
  = Api.OK {| Api.download_word := "Test Word";
              Api.download_success := true;
              Api.download_cached_videos :=
                [ "cache/test_word_2a1f2880.mp4";
                  "cache/test_word_3cf62b9b.mp4";
                  "cache/test_word_2a1f2880.mp4" ];
              Api.download_message := "Successfully downloaded 3 video(s)" |} /\
  requests (snd (Api.download_video signing_env "Test Word" false empty_world))
  = ["https://www.signasl.org/sign/test-word"; "a.mp4"; "b.mp4"].
Proof. split; vm_compute; reflexivity. Qed.

Example path_str_normalized :
  path_str "cache" "x.mp4" = "cache/x.mp4" /\
  path_str "./cache" "x.mp4" = "cache/x.mp4" /\
  path_str "cache/" "./x.mp4" = "cache/x.mp4" /\
  path_str "" "x.mp4" = "x.mp4" /\
  path_str "." "a/b.mp4" = "a/b.mp4" /\
  path_str "//a" "x.mp4" = "//a/x.mp4" /\
  path_str "///a" "x.mp4" = "/a/x.mp4" /\
  path_str "a//b" "../x.mp4" = "a/b/../x.mp4" /\
  path_str "cache" "/abs.mp4" = "/abs.mp4" /\
  path_str "../c" "//x.mp4" = "//x.mp4".
Proof. repeat split; vm_compute; reflexivity. Qed.

Example glob_error_patterns :
  glob_error "*.mp4" = None /\
  glob_error "*_*.mp4" = None /\
  glob_error "why?_*.mp4" = None /\
  glob_error "a**_*.mp4" = Some ValueError /\
  glob_error "***_*.mp4" = Some ValueError /\
  glob_error "**/y_*.mp4" = None /\
  glob_error "/x_*.mp4" = Some NotImplementedError /\
  glob_error "//x_*.mp4" = Some NotImplementedError.
Proof. repeat split; vm_compute; reflexivity. Qed.

Example fnmatch_metacharacters :
  fnmatch "why?_4.mp4" "why?_*.mp4" = true /\
  fnmatch "[a]_b_3.mp4" "[a]_*.mp4" = false /\
  fnmatch "a_b_3.mp4" "[a]_*.mp4" = true /\
  fnmatch "*[a]a_b_6.mp4" "*[a]a_*.mp4" = false /\
  fnmatch "[_x.mp4" "[_*.mp4" = true /\
  fnmatch "Hello_1.mp4" "hello_*.mp4" = false.
Proof. repeat split; vm_compute; reflexivity. Qed.

Example download_video_name_refused :
  download_video "cache" name_refused_env "hello" "u" false empty_world
  = (Raise OSError, empty_world) /\
  is_cached name_refused_env "hello" "u" empty_world = (Raise OSError, empty_world) /\
  is_cached serving_env "hello" "u" empty_world = (Ret false, empty_world) /\
  fst (is_cached name_refused_env "hello" "u" hello_cache) = Ret true.
Proof. repeat split; vm_compute; reflexivity. Qed.
